(** * Observer / publish-subscribe brokers of javascript-design-patterns

    A shallow embedding of the observer implementations of
    [src/observer-pattern/example-1.js] (ObserverList / Subject and the
    [pubsub] broker), [src/observer-pattern/example-3.js] (Click) and
    [src/unnamed/part_002] (the [publisherSubscriber] container), and the
    properties of the broker specification checked against them.

    JavaScript functions and objects are compared by identity, so they are
    represented by references (numbers); what a callback does when it is
    called is given by an environment that maps a function reference to a
    transformer of the whole program state, the broker included, so that a
    callback may re-enter the broker while a notification is in flight. *)

From Stdlib Require Import ZArith.
From stdpp Require Import base decidable option list strings pretty gmap.

Local Open Scope string_scope.
Local Open Scope list_scope.
Local Open Scope Z_scope.

(** ** JavaScript values, completions and array primitives *)
Module JS.

Definition funref := nat.
Definition objref := nat.

(** The values that cross the brokers' interfaces. Numbers are the
    integer-valued ones; [VThis] is the object a method was called on. *)
Inductive value :=
| VUndefined
| VNull
| VBool (b : bool)
| VNum (n : Z)
| VStr (s : string)
| VFun (f : funref)
| VObj (o : objref)
| VThis.

Inductive exn :=
| TypeError
| Thrown (v : value).

(** How a call ends: [return v] or an exception that propagates. *)
Inductive completion :=
| Normal (v : value)
| Abrupt (e : exn).

(** ToBoolean *)
Definition truthy (v : value) : bool :=
  match v with
  | VUndefined | VNull => false
  | VBool b => b
  | VNum n => negb (n =? 0)
  | VStr s => negb (String.eqb s "")
  | VFun _ | VObj _ | VThis => true
  end.

(** [Number.prototype.toString] of an integer-valued number (below 1e21,
    where the decimal digits are printed in full). *)
Definition toString (n : Z) : string := pretty n.

(** 2^53, the value at which a counter stops: a JavaScript number is an
    IEEE double, which holds every integer up to 2^53 and not 2^53 + 1. *)
Definition max_safe : Z := 9007199254740992.

(** [++n] for an integer n with -2^53 <= n <= 2^53: below 2^53 the sum
    n + 1 is exact; 2^53 + 1 rounds to the nearest double, which is 2^53
    again, so a counter that has reached 2^53 stays there. A counter that
    starts at -1 or 0 and changes by [++] only keeps to this range. *)
Definition increment (n : Z) : Z :=
  if n <? max_safe then n + 1 else n.

(** [Array.prototype.splice(start, deleteCount)] without inserted items:
    a negative [start] counts from the end, and both ends are clamped. *)
Definition splice {A} (start : Z) (deleteCount : nat) (l : list A) : list A :=
  let len := Z.of_nat (length l) in
  let actualStart :=
    Z.to_nat (if start <? 0 then Z.max (len + start) 0 else Z.min start len) in
  take actualStart l ++ drop (actualStart + deleteCount)%nat l.

(** The properties every plain object inherits from [Object.prototype]:
    functions (with their [length]) and the [__proto__] accessor, which
    yields [Object.prototype] itself. None of them is enumerable. *)
Inductive inherited :=
| IFun (arity : nat)
| IProto.

Definition objectPrototype (key : string) : option inherited :=
  if String.eqb key "constructor" then Some (IFun 1)
  else if String.eqb key "hasOwnProperty" then Some (IFun 1)
  else if String.eqb key "isPrototypeOf" then Some (IFun 1)
  else if String.eqb key "propertyIsEnumerable" then Some (IFun 1)
  else if String.eqb key "toLocaleString" then Some (IFun 0)
  else if String.eqb key "toString" then Some (IFun 0)
  else if String.eqb key "valueOf" then Some (IFun 0)
  else if String.eqb key "__defineGetter__" then Some (IFun 2)
  else if String.eqb key "__defineSetter__" then Some (IFun 2)
  else if String.eqb key "__lookupGetter__" then Some (IFun 1)
  else if String.eqb key "__lookupSetter__" then Some (IFun 1)
  else if String.eqb key "__proto__" then Some IProto
  else None.

End JS.
Import JS.

Global Instance value_eq_dec : EqDecision value.
Proof. solve_decision. Defined.

Global Instance exn_eq_dec : EqDecision exn.
Proof. solve_decision. Defined.

Global Instance completion_eq_dec : EqDecision completion.
Proof. solve_decision. Defined.

(** ** The [pubsub] broker of example-1.js (lines 274-335) *)
Module PubSub.

(** [{ token: token, func: func }] *)
Record subscription := Subscription { token : string; func : funref }.

Global Instance subscription_eq_dec : EqDecision subscription.
Proof. solve_decision. Defined.

(** The own properties of [topics] in the order of their creation, which
    is the order in which [for (var m in topics)] enumerates them (names
    that are array indices, such as "7", come first in a JavaScript engine;
    what is proved of [unsubscribe] below holds for every order of the
    list). Every own property holds an array of subscriptions. *)
Definition registry := list (string * list subscription).

(** One call [subscribers[len].func(topic, args)] and how it ended. *)
Record event := Event {
  target : subscription;
  arguments : list value;
  outcome : completion }.

Section Broker.
(** The rest of the program state, which callbacks read and write. *)
Context {H : Type}.

(** The closure variables [topics] and [subUid], and the rest. [subUid]
    is a number with an integer value; it starts at -1 and changes by
    [++subUid] only, see [increment]. *)
Record world := World {
  topics : registry;
  subUid : Z;
  user : H }.

Definition init (h : H) : world :=
  {| topics := []; subUid := -1; user := h |}.

(** What [topics[topic]] evaluates to. *)
Inductive slot :=
| SArray (l : list subscription)
| SInherited (i : inherited)
| SUndefined.

Fixpoint own (topic : string) (ts : registry) : option (list subscription) :=
  match ts with
  | [] => None
  | (m, l) :: rest => if decide (m = topic) then Some l else own topic rest
  end.

Definition get (ts : registry) (topic : string) : slot :=
  match own topic ts with
  | Some l => SArray l
  | None =>
      match objectPrototype topic with
      | Some i => SInherited i
      | None => SUndefined
      end
  end.

(** In-place update of the array held by the own property [topic]. *)
Fixpoint update (topic : string) (f : list subscription -> list subscription)
    (ts : registry) : registry :=
  match ts with
  | [] => []
  | (m, l) :: rest =>
      if decide (m = topic) then (m, f l) :: rest
      else (m, l) :: update topic f rest
  end.

(** The array [subscribers] of [publish]: an alias of [topics[topic]],
    which is never rebound once it holds an array. *)
Definition subscribers (w : world) (topic : string) : list subscription :=
  default [] (own topic (topics w)).

(** [myObject.subscribe = function (topic, func)]. [++subUid] is
    evaluated before [push] is looked up, so the counter moves also when
    [topics[topic]] is an inherited property and the call throws. *)
Definition subscribe (topic : string) (f : funref) (w : world)
    : completion * world :=
  let ts :=
    match get (topics w) topic with
    | SUndefined => topics w ++ [(topic, [])]
    | _ => topics w
    end in
  let uid := increment (subUid w) in
  let tok := toString uid in
  match get ts topic with
  | SArray _ =>
      (Normal (VStr tok),
       {| topics := update topic (fun l => l ++ [Subscription tok f]) ts;
          subUid := uid; user := user w |})
  | _ => (Abrupt TypeError, {| topics := ts; subUid := uid; user := user w |})
  end.

(** [s.token === tok] *)
Definition matches (tok : value) (s : subscription) : Prop :=
  VStr (token s) = tok.

Global Instance matches_dec tok s : Decision (matches tok s).
Proof. unfold matches. apply _. Defined.

(** The inner loop of [unsubscribe]: the first index [i] with
    [topics[m][i].token === token]. *)
Fixpoint find_token (tok : value) (l : list subscription) : option nat :=
  match l with
  | [] => None
  | s :: rest =>
      if decide (matches tok s) then Some 0%nat
      else S <$> find_token tok rest
  end.

(** The outer loop: topics in enumeration order; the first match is
    spliced out and the scan stops. *)
Fixpoint scan (tok : value) (ts : registry) : option registry :=
  match ts with
  | [] => None
  | (m, l) :: rest =>
      match find_token tok l with
      | Some i => Some ((m, splice (Z.of_nat i) 1 l) :: rest)
      | None => cons (m, l) <$> scan tok rest
      end
  end.

(** [myObject.unsubscribe = function (token)] *)
Definition unsubscribe (tok : value) (w : world) : completion * world :=
  match scan tok (topics w) with
  | Some ts => (Normal tok, {| topics := ts; subUid := subUid w; user := user w |})
  | None => (Normal VThis, w)
  end.

(** Every subscription of the registry, topic after topic. *)
Definition subscriptions (w : world) : list subscription :=
  concat (map snd (topics w)).

(** The registry without the subscriptions a token matches: every topic
    keeps its place and its other entries, in their order. *)
Definition without (tok : value) (ts : registry) : registry :=
  map (fun e => (e.1, filter (fun s => ~ matches tok s) e.2)) ts.

(** The registry invariant: no two subscriptions carry the same token, and
    every token prints a value the counter has passed. *)
Definition tokens_distinct (w : world) : Prop :=
  NoDup (token <$> subscriptions w) /\
  Forall (fun s => exists n, token s = toString n /\ n <= subUid w) (subscriptions w).

(** A client's calls in the order it makes them, and what each call
    returned: the lifetime of one broker. *)
Inductive request :=
| Subscribe (topic : string) (f : funref)
| Unsubscribe (tok : value).

Definition serve (r : request) (w : world) : completion * world :=
  match r with
  | Subscribe topic f => subscribe topic f w
  | Unsubscribe tok => unsubscribe tok w
  end.

Fixpoint run (rs : list request) (w : world) : list (request * completion) * world :=
  match rs with
  | [] => ([], w)
  | r :: rest =>
      let '(c, w') := serve r w in
      let '(log, w'') := run rest w' in
      ((r, c) :: log, w'')
  end.

(** The token a logged call handed out, if it was a [subscribe]. *)
Definition issued (rc : request * completion) : option value :=
  match rc with
  | (Subscribe _ _, Normal v) => Some v
  | _ => None
  end.

(** How many of the calls are calls of [subscribe]: each of them
    evaluates [++subUid] once, whether it returns or throws. *)
Fixpoint subscribe_calls (rs : list request) : Z :=
  match rs with
  | [] => 0
  | Subscribe _ _ :: rest => 1 + subscribe_calls rest
  | Unsubscribe _ :: rest => subscribe_calls rest
  end.

(** What calling a function does: the callee and its arguments are
    given, the program state goes in and comes out. *)
Definition behaviour := funref -> list value -> world -> completion * world.

Record result := Result {
  ret : completion;
  final : world;
  trace : list event }.

Section Publish.
Variable call : behaviour.
Variables (topic : string) (args : value).

(** [while (len--) { subscribers[len].func(topic, args); }]:
    [len] was read once; [subscribers] is the live array. *)
Fixpoint publish_loop (len : nat) (w : world) (tr : list event) : result :=
  match len with
  | O => Result (Normal VThis) w tr
  | S len' =>
      match subscribers w topic !! len' with
      | None => Result (Abrupt TypeError) w tr
      | Some s =>
          let '(c, w') := call (func s) [VStr topic; args] w in
          let tr' := tr ++ [Event s [VStr topic; args] c] in
          match c with
          | Normal _ => publish_loop len' w' tr'
          | Abrupt e => Result (Abrupt e) w' tr'
          end
      end
  end.

(** [myObject.publish = function (topic, args)] *)
Definition publish (w : world) : result :=
  match get (topics w) topic with
  | SUndefined => Result (Normal (VBool false)) w []
  | SArray l => publish_loop (length l) w []
  | SInherited (IFun (S _)) => Result (Abrupt TypeError) w []
  | SInherited _ => Result (Normal VThis) w []
  end.
End Publish.

(** A callback that returns and leaves the broker as it found it. *)
Definition inert (call : behaviour) (f : funref) : Prop :=
  forall args w, exists v h,
    call f args w =
    (Normal v, {| topics := topics w; subUid := subUid w; user := h |}).

(** An event of a call with the arguments [(topic, args)] that
    returned. *)
Definition delivered (topic : string) (args : value) (e : event) : Prop :=
  arguments e = [VStr topic; args] /\ exists v, outcome e = Normal v.

(** The subscriber at any index [k] of [l0], called with
    [(topic, args)] while it and the entries before it are in place in
    the topic's array, returns and leaves the entries before it in
    place. It may remove itself and entries after it, and add entries. *)
Definition keeps_earlier (call : behaviour) (topic : string) (args : value)
    (l0 : list subscription) : Prop :=
  forall (k : nat) s w,
    l0 !! k = Some s ->
    take (S k) (subscribers w topic) = take (S k) l0 ->
    exists v w',
      call (func s) [VStr topic; args] w = (Normal v, w') /\
      take k (subscribers w' topic) = take k l0.

(** The state the callbacks of the subscriptions [l] leave when they are
    called one after the other with [(topic, args)]. *)
Definition after (call : behaviour) (topic : string) (args : value)
    (l : list subscription) (w : world) : world :=
  foldl (fun w s => (call (func s) [VStr topic; args] w).2) w l.
End Broker.

Arguments world : clear implicits.
Arguments behaviour : clear implicits.
Arguments result : clear implicits.
End PubSub.

(** ** ObserverList and Subject of example-1.js (lines 20-74) *)
Module ObserverList.

(** [this.observerList]: observers are objects, compared by identity. *)
Definition observerList := list objref.

(** [add] pushes and returns what [push] returns, the new length. *)
Definition add (obj : objref) (l : observerList) : Z * observerList :=
  (Z.of_nat (length (l ++ [obj])), l ++ [obj]).

Definition count (l : observerList) : Z := Z.of_nat (length l).

(** [get]: [None] stands for the [undefined] of an index out of range. *)
Definition get (index : Z) (l : observerList) : option objref :=
  if (-1 <? index) && (index <? Z.of_nat (length l))
  then l !! Z.to_nat index else None.

(** The scan of [indexOf] over the elements from index [i] on. *)
Fixpoint indexOf_from (obj : objref) (l : observerList) (i : Z) : Z :=
  match l with
  | [] => -1
  | o :: rest => if decide (o = obj) then i else indexOf_from obj rest (i + 1)
  end.

(** [indexOf]: at a negative index the array reads [undefined], which is
    no object, so the scan first reaches index 0. *)
Definition indexOf (obj : objref) (startIndex : Z) (l : observerList) : Z :=
  let i := Z.max startIndex 0 in
  indexOf_from obj (drop (Z.to_nat i) l) i.

(** [removeAt]: [this.observerList.splice(index, 1)]. *)
Definition removeAt (index : Z) (l : observerList) : observerList :=
  splice index 1 l.

End ObserverList.

Module Subject.

(** One call [observer.update(context)] and how it ended. *)
Record event := Event {
  observer : objref;
  context : value;
  outcome : completion }.

Section Subject.
Context {H : Type}.

(** [this.observers] and the rest of the program state. *)
Record subject := Subject_ {
  observers : ObserverList.observerList;
  user : H }.

Definition addObserver (o : objref) (s : subject) : subject :=
  {| observers := snd (ObserverList.add o (observers s)); user := user s |}.

(** [this.observers.removeAt(this.observers.indexOf(observer, 0))] *)
Definition removeObserver (o : objref) (s : subject) : subject :=
  {| observers :=
       ObserverList.removeAt (ObserverList.indexOf o 0 (observers s)) (observers s);
     user := user s |}.

(** What [update] of each observer does to the program state. *)
Definition behaviour := objref -> value -> subject -> completion * subject.

Record result := Result {
  ret : completion;
  final : subject;
  trace : list event }.

Section Notify.
Variable update : behaviour.
Variable ctx : value.

(** [for (var i = 0; i < observerCount; i++)]: [n] iterations are
    left, [i] is the loop variable; [get(i)] reads the live list and
    [undefined.update] is a TypeError. *)
Fixpoint notify_loop (n : nat) (i : Z) (s : subject) (tr : list event) : result :=
  match n with
  | O => Result (Normal VUndefined) s tr
  | S n' =>
      match ObserverList.get i (observers s) with
      | None => Result (Abrupt TypeError) s tr
      | Some o =>
          let '(c, s') := update o ctx s in
          let tr' := tr ++ [Event o ctx c] in
          match c with
          | Normal _ => notify_loop n' (i + 1) s' tr'
          | Abrupt e => Result (Abrupt e) s' tr'
          end
      end
  end.

(** [Subject.prototype.notify]: the count is read once. *)
Definition notify (s : subject) : result :=
  let observerCount := ObserverList.count (observers s) in
  notify_loop (Z.to_nat observerCount) 0 s [].
End Notify.

(** Every [update] of an observer of [l0], called while the list starts
    with [l0], leaves the list starting with [l0]: it may append observers
    and removes none of the first ones. *)
Definition only_appends (update : behaviour) (ctx : value)
    (l0 : ObserverList.observerList) : Prop :=
  forall o s, o ∈ l0 -> l0 `prefix_of` observers s ->
    l0 `prefix_of` observers (update o ctx s).2.

(** Every [update] of an observer of [l0], called while the list starts
    with [l0], returns. *)
Definition returns (update : behaviour) (ctx : value)
    (l0 : ObserverList.observerList) : Prop :=
  forall o s, o ∈ l0 -> l0 `prefix_of` observers s ->
    exists v s', update o ctx s = (Normal v, s').

(** An event of a call [update(ctx)] that returned. *)
Definition delivered (ctx : value) (e : event) : Prop :=
  context e = ctx /\ exists v, outcome e = Normal v.

(** The state the [update] methods of the observers [l] leave when they
    are called one after the other with [ctx]. *)
Definition after (update : behaviour) (ctx : value)
    (l : ObserverList.observerList) (s : subject) : subject :=
  foldl (fun s o => (update o ctx s).2) s l.
End Subject.

Arguments subject : clear implicits.
Arguments behaviour : clear implicits.
Arguments result : clear implicits.
End Subject.

(** ** Click of example-3.js (lines 23-46) *)
Module Click.

(** One call [item.call(scope, o)] and how it ended. *)
Record event := Event {
  handler : funref;
  this : value;
  argument : value;
  outcome : completion }.

(** The global object, the default [this] of a handler. *)
Definition window : value := VObj 0%nat.

Section Click.
Context {H : Type}.

(** [this.handlers] and the rest of the program state. *)
Record click := Click_ {
  handlers : list funref;
  user : H }.

Definition subscribe (fn : funref) (c : click) : click :=
  {| handlers := handlers c ++ [fn]; user := user c |}.

(** The callback of [filter]: [if (item !== fn) return item;], which is
    [undefined] when the test fails. *)
Definition keep (fn item : funref) : value :=
  if decide (item <> fn) then VFun item else VUndefined.

(** [this.handlers = this.handlers.filter(...)]: a new array. *)
Definition unsubscribe (fn : funref) (c : click) : click :=
  {| handlers := List.filter (fun item => truthy (keep fn item)) (handlers c);
     user := user c |}.

Definition behaviour := funref -> value -> value -> click -> completion * click.

Record result := Result {
  ret : completion;
  final : click;
  trace : list event }.

Section Fire.
Variable call : behaviour.
Variables (o scope : value).

(** [forEach] walks the array it was called on up to the length it
    had at the start. Handlers act on the Click through [subscribe],
    which pushes beyond that length, and [unsubscribe], which binds
    [this.handlers] to a new array, so the walk sees the items that
    were there when [fire] was entered. *)
Fixpoint fire_loop (items : list funref) (c : click) (tr : list event) : result :=
  match items with
  | [] => Result (Normal VUndefined) c tr
  | item :: rest =>
      let '(r, c') := call item scope o c in
      let tr' := tr ++ [Event item scope o r] in
      match r with
      | Normal _ => fire_loop rest c' tr'
      | Abrupt e => Result (Abrupt e) c' tr'
      end
  end.
End Fire.

(** [fire: function (o, thisObj)] with [scope = thisObj || window || null]. *)
Definition fire (call : behaviour) (o thisObj : value) (c : click) : result :=
  let scope :=
    if truthy thisObj then thisObj
    else if truthy window then window else VNull in
  fire_loop call o scope (handlers c) c [].
End Click.

Arguments click : clear implicits.
Arguments behaviour : clear implicits.
Arguments result : clear implicits.
End Click.

(** ** The [publisherSubscriber] container of part_002 (lines 16-58) *)
Module Container.

(** [{ id: ++id, callback: f }] *)
Record subscriber := Subscriber { id : Z; callback : funref }.

Global Instance subscriber_eq_dec : EqDecision subscriber.
Proof. solve_decision. Defined.

(** One call [subscriber.callback(data)] and how it ended. *)
Record event := Event {
  target : subscriber;
  arguments : list value;
  outcome : completion }.

Section Container.
(** The program state outside the container. The callbacks of this
    model act on that state only: they do not re-enter the container
    (re-entrant callbacks are studied on [PubSub]). *)
Context {H : Type}.

(** The topic properties of [container] in creation order, and the
    closure variable [id], a number with an integer value that starts at
    0 and changes by [++id] only, see [increment]. *)
Record world := World {
  topics : list (string * list subscriber);
  counter : Z;
  user : H }.

Definition init (h : H) : world :=
  {| topics := []; counter := 0; user := h |}.

(** What [container[topic]] evaluates to: the container holds its three
    methods next to the topics. *)
Inductive slot :=
| SArray (l : list subscriber)
| SMethod
| SInherited (i : inherited)
| SUndefined.

Fixpoint own (topic : string) (ts : list (string * list subscriber))
    : option (list subscriber) :=
  match ts with
  | [] => None
  | (m, l) :: rest => if decide (m = topic) then Some l else own topic rest
  end.

Definition is_method (key : string) : bool :=
  String.eqb key "subscribe" || String.eqb key "unsubscribe"
  || String.eqb key "publish".

Definition get (ts : list (string * list subscriber)) (topic : string) : slot :=
  if is_method topic then SMethod
  else match own topic ts with
       | Some l => SArray l
       | None =>
           match objectPrototype topic with
           | Some i => SInherited i
           | None => SUndefined
           end
       end.

Fixpoint update (topic : string) (f : list subscriber -> list subscriber)
    (ts : list (string * list subscriber)) : list (string * list subscriber) :=
  match ts with
  | [] => []
  | (m, l) :: rest =>
      if decide (m = topic) then (m, f l) :: rest
      else (m, l) :: update topic f rest
  end.

(** [container.subscribe = function (topic, f)]; [topic in container]
    holds for every slot but [SUndefined]. The argument of [push], and
    so [++id], is evaluated before the call of [push] can fail. *)
Definition subscribe (topic : string) (f : funref) (w : world)
    : completion * world :=
  let ts :=
    match get (topics w) topic with
    | SUndefined => topics w ++ [(topic, [])]
    | _ => topics w
    end in
  let n := increment (counter w) in
  match get ts topic with
  | SArray _ =>
      (Normal (VNum n),
       {| topics := update topic (fun l => l ++ [Subscriber n f]) ts;
          counter := n; user := user w |})
  | _ => (Abrupt TypeError, {| topics := ts; counter := n; user := user w |})
  end.

(** [container.unsubscribe = function (topic, id)]: [for ... of] over
    anything but an array is a TypeError. *)
Definition unsubscribe (topic : string) (i : value) (w : world)
    : completion * world :=
  match get (topics w) topic with
  | SArray _ =>
      (Normal VUndefined,
       {| topics :=
            update topic
              (List.filter (fun s => bool_decide (VNum (id s) <> i))) (topics w);
          counter := counter w; user := user w |})
  | _ => (Abrupt TypeError, w)
  end.

Inductive request :=
| Subscribe (topic : string) (f : funref)
| Unsubscribe (topic : string) (i : value).

Definition serve (r : request) (w : world) : completion * world :=
  match r with
  | Subscribe topic f => subscribe topic f w
  | Unsubscribe topic i => unsubscribe topic i w
  end.

Fixpoint run (rs : list request) (w : world) : list (request * completion) * world :=
  match rs with
  | [] => ([], w)
  | r :: rest =>
      let '(c, w') := serve r w in
      let '(log, w'') := run rest w' in
      ((r, c) :: log, w'')
  end.

(** The id a logged call handed out, if it was a [subscribe]. *)
Definition issued (rc : request * completion) : option value :=
  match rc with
  | (Subscribe _ _, Normal v) => Some v
  | _ => None
  end.

(** How many of the calls are calls of [subscribe]: each of them
    evaluates [++id] once, whether it returns or throws. *)
Fixpoint subscribe_calls (rs : list request) : Z :=
  match rs with
  | [] => 0
  | Subscribe _ _ :: rest => 1 + subscribe_calls rest
  | Unsubscribe _ _ :: rest => subscribe_calls rest
  end.

Definition behaviour := funref -> list value -> H -> completion * H.

Record result := Result {
  ret : completion;
  final : world;
  trace : list event }.

Section Publish.
Variable call : behaviour.
Variable data : value.

(** [for (var subscriber of container[topic]) subscriber.callback(data)]:
    the iterator reads the array as it is at each step. The callbacks of
    this model do not call the container's methods, so the array stays
    the one the loop was entered with. *)
Fixpoint publish_loop (l : list subscriber) (w : world) (tr : list event) : result :=
  match l with
  | [] => Result (Normal VUndefined) w tr
  | s :: rest =>
      let '(c, h) := call (callback s) [data] (user w) in
      let w' := {| topics := topics w; counter := counter w; user := h |} in
      let tr' := tr ++ [Event s [data] c] in
      match c with
      | Normal _ => publish_loop rest w' tr'
      | Abrupt e => Result (Abrupt e) w' tr'
      end
  end.

Definition publish (topic : string) (w : world) : result :=
  match get (topics w) topic with
  | SArray l => publish_loop l w []
  | _ => Result (Abrupt TypeError) w []
  end.
End Publish.

(** Every subscriber of the container, topic after topic. *)
Definition subscribers (w : world) : list subscriber :=
  concat (map snd (topics w)).

(** The invariant of the container: no two subscribers have the same id,
    and every id is a value the counter has passed. *)
Definition ids_distinct (w : world) : Prop :=
  NoDup (id <$> subscribers w) /\
  Forall (fun s => id s <= counter w) (subscribers w).

(** A callback that returns whenever it is called. *)
Definition returns (call : behaviour) (f : funref) : Prop :=
  forall args h, exists v h', call f args h = (Normal v, h').

(** An event of a call with the one argument [data] that returned. *)
Definition delivered (data : value) (e : event) : Prop :=
  arguments e = [data] /\ exists v, outcome e = Normal v.
End Container.

Arguments world : clear implicits.
Arguments behaviour : clear implicits.
Arguments result : clear implicits.
End Container.

(** ** [extend] and the checkbox page of example-1.js (lines 102-147) *)
Module Page.




(** What the page holds next to the subject: the [checked] property of
    every element, the number of elements [document.createElement] has
    made (the next one is a new object), and the children of [container]. *)
Record page := Page_ {
  checked : objref -> value;
  created : nat;
  children : list objref }.

Definition set_checked (o : objref) (v : value) (p : page) : page :=
  {| checked := fun o' => if decide (o' = o) then v else checked p o';
     created := created p;
     children := children p |}.

(** [check.update = function (value) { this.checked = value; }] *)
Definition update : Subject.behaviour page :=
  fun o v s =>
    (Normal VUndefined,
     {| Subject.observers := Subject.observers s;
        Subject.user := set_checked o v (Subject.user s) |}).

(** [controlCheckbox.onclick]: [controlCheckbox.notify(controlCheckbox.checked)] *)
Definition onclick (controlChecked : bool) (s : Subject.subject page)
    : Subject.result page :=
  Subject.notify update (VBool controlChecked) s.


(** The page as the script leaves it: no observer, no element made. *)
Definition start : Subject.subject page :=
  {| Subject.observers := [];
     Subject.user := {| checked := fun _ => VBool false; created := 0;
                        children := [] |} |}.




End Page.

(** ** Concrete brokers and callbacks used below *)
Module Scenario.

(** [pubsub] after [subscribe("clicks", f1)], [subscribe("clicks", f2)]
    and [subscribe("keys", f3)], in a program with no other state. *)
Definition clicks_and_keys : PubSub.world unit :=
  (PubSub.run [PubSub.Subscribe "clicks" 1%nat; PubSub.Subscribe "clicks" 2%nat;
               PubSub.Subscribe "keys" 3%nat] (PubSub.init tt)).2.

(** Callbacks that return at once and touch nothing. *)
Definition quiet : PubSub.behaviour unit :=
  fun _ _ w => (Normal VUndefined, w).

(** The container after the same three subscriptions. *)
Definition container_clicks_and_keys : Container.world unit :=
  (Container.run [Container.Subscribe "clicks" 1%nat;
                  Container.Subscribe "clicks" 2%nat;
                  Container.Subscribe "keys" 3%nat] (Container.init tt)).2.

Definition container_quiet : Container.behaviour unit :=
  fun _ _ h => (Normal VUndefined, h).

(** The callback 2 throws, every other callback returns at once. *)
Definition thrower : PubSub.behaviour unit :=
  fun f _ w =>
    if decide (f = 2%nat) then (Abrupt (Thrown (VStr "boom")), w)
    else (Normal VUndefined, w).

(** The callback 2 is [function () { pubsub.unsubscribe("0"); }]: it
    cancels the subscription made before its own. *)
Definition remover : PubSub.behaviour unit :=
  fun f _ w =>
    if decide (f = 2%nat) then (Normal VUndefined, (PubSub.unsubscribe (VStr "0") w).2)
    else (Normal VUndefined, w).

(** The callback 2 is [function () { pubsub.unsubscribe("1"); }]: in
    [clicks_and_keys] it cancels its own subscription. *)
Definition leaver : PubSub.behaviour unit :=
  fun f _ w =>
    if decide (f = 2%nat) then (Normal VUndefined, (PubSub.unsubscribe (VStr "1") w).2)
    else (Normal VUndefined, w).

(** Click handlers of which the handler 1 throws. *)
Definition click_thrower : Click.behaviour unit :=
  fun f _ _ c =>
    if decide (f = 1%nat) then (Abrupt (Thrown (VStr "boom")), c)
    else (Normal VUndefined, c).

(** Observers whose [update] adds the observer 9 to the subject. *)
Definition adder : Subject.behaviour unit :=
  fun _ _ s => (Normal VUndefined, Subject.addObserver 9%nat s).

(** The [update] of observer 1 replaces it by the observer 9:
    [subject.removeObserver(this); subject.addObserver(o9);]. The other
    observers do nothing. *)
Definition replacer : Subject.behaviour unit :=
  fun o _ s =>
    if decide (o = 1%nat)
    then (Normal VUndefined, Subject.addObserver 9%nat (Subject.removeObserver 1%nat s))
    else (Normal VUndefined, s).

(** Observers whose [update] removes the observer itself. *)
Definition quitter : Subject.behaviour unit :=
  fun o _ s => (Normal VUndefined, Subject.removeObserver o s).

(** A subject observed by the objects 1 and 2. *)
Definition two_observers : Subject.subject unit :=
  {| Subject.observers := [1%nat; 2%nat]; Subject.user := tt |}.

End Scenario.


(** ** More concrete states and callbacks *)
Module Samples.

(** Observers of which the observer 1 throws in [update]. *)
Definition faulty : Subject.behaviour unit :=
  fun o _ s =>
    if decide (o = 1%nat) then (Abrupt (Thrown (VStr "boom")), s)
    else (Normal VUndefined, s).

(** Observers whose [update] returns at once. *)
Definition steady : Subject.behaviour unit :=
  fun _ _ s => (Normal VUndefined, s).

(** Click handlers that return at once. *)
Definition click_quiet : Click.behaviour unit :=
  fun _ _ _ c => (Normal VUndefined, c).

End Samples.

(** * Properties *)

Example toString_0 : toString 0 = "0".
Proof. reflexivity. Qed.

(** ** Tokens *)

Lemma toString_inj (m n : Z) : toString m = toString n -> m = n.
Proof. unfold toString. apply (inj pretty). Qed.

(** [++] on a counter: one more below 2^53, the same value at 2^53. *)
Lemma increment_below n : n < max_safe -> increment n = n + 1.
Proof. unfold increment. destruct (Z.ltb_spec n max_safe); lia. Qed.


Lemma increment_bounds n : n <= increment n <= n + 1.
Proof. unfold increment. destruct (Z.ltb_spec n max_safe); lia. Qed.



Section PubSubTokens.
Context {H : Type}.
Implicit Types (w : PubSub.world H) (rs : list PubSub.request).

Lemma subscribe_subUid topic f w :
  PubSub.subUid (PubSub.subscribe topic f w).2 = increment (PubSub.subUid w).
Proof.
  unfold PubSub.subscribe.
  destruct (PubSub.get _ topic); reflexivity.
Qed.


Lemma unsubscribe_subUid tok w :
  PubSub.subUid (PubSub.unsubscribe tok w).2 = PubSub.subUid w.
Proof. unfold PubSub.unsubscribe. destruct (PubSub.scan _ _); reflexivity. Qed.


Lemma subscribe_calls_nonneg rs : 0 <= PubSub.subscribe_calls rs.
Proof.
  induction rs as [|[topic f|tok] rs IH]; cbn [PubSub.subscribe_calls]; lia.
Qed.





End PubSubTokens.

Section ContainerTokens.
Context {H : Type}.
Implicit Types (w : Container.world H) (rs : list Container.request).

Lemma container_subscribe_counter topic f w :
  Container.counter (Container.subscribe topic f w).2 = increment (Container.counter w).
Proof.
  unfold Container.subscribe.
  destruct (Container.get _ topic); reflexivity.
Qed.


Lemma container_unsubscribe_counter topic i w :
  Container.counter (Container.unsubscribe topic i w).2 = Container.counter w.
Proof. unfold Container.unsubscribe. destruct (Container.get _ _); reflexivity. Qed.


Lemma container_subscribe_calls_nonneg rs : 0 <= Container.subscribe_calls rs.
Proof.
  induction rs as [|[topic f|topic i] rs IH]; cbn [Container.subscribe_calls]; lia.
Qed.





End ContainerTokens.




Example tokens_of_three_subscriptions :
  omap PubSub.issued
    (PubSub.run [PubSub.Subscribe "a" 1%nat; PubSub.Subscribe "b" 2%nat;
                 PubSub.Unsubscribe (VStr "0"); PubSub.Subscribe "a" 1%nat]
       (PubSub.init tt)).1
  = [VStr "0"; VStr "1"; VStr "2"].
Proof. vm_compute. reflexivity. Qed.

(** ** Unsubscription *)

Lemma splice_of_nat {A} (i n : nat) (l : list A) :
  splice (Z.of_nat i) n l = take i l ++ drop (i + n) l.
Proof.
  unfold splice.
  destruct (Z.ltb_spec (Z.of_nat i) 0) as [Hneg|_]; [lia|].
  destruct (Z.min_spec (Z.of_nat i) (Z.of_nat (length l))) as [[Hlt ->]|[Hge ->]].
  - rewrite Nat2Z.id. reflexivity.
  - rewrite Nat2Z.id.
    rewrite !take_ge, !drop_ge by lia. reflexivity.
Qed.

Section Unsubscribe.
Context {H : Type}.
Implicit Types (w : PubSub.world H) (ts : PubSub.registry)
  (l : list PubSub.subscription) (tok : value).

Lemma find_token_None tok l :
  PubSub.find_token tok l = None <->
  Forall (fun s => ~ PubSub.matches tok s) l.
Proof.
  induction l as [|s l IH]; simpl.
  - split; [constructor | reflexivity].
  - destruct (decide (PubSub.matches tok s)) as [Hm|Hm].
    + split; [discriminate|]. intros Hall. inversion Hall; contradiction.
    + destruct (PubSub.find_token tok l) as [i|]; simpl.
      * split; [discriminate|]. intros Hall. inversion Hall as [|? ? _ Hl].
        apply IH in Hl. discriminate.
      * split; [|reflexivity]. intros _. constructor; [exact Hm|].
        apply IH. reflexivity.
Qed.

Lemma filter_none_matches tok l :
  Forall (fun s => ~ PubSub.matches tok s) l ->
  filter (fun s => ~ PubSub.matches tok s) l = l /\
  filter (PubSub.matches tok) l = [].
Proof.
  induction 1 as [|s l Hs _ [IH1 IH2]]; [split; reflexivity|].
  rewrite filter_cons_True by exact Hs.
  rewrite filter_cons_False by exact Hs.
  rewrite IH1. split; [reflexivity | exact IH2].
Qed.

(** The position found is that of the first match; when it is the only
    one, splicing it out is filtering the token out. *)
Lemma find_token_Some tok l i :
  PubSub.find_token tok l = Some i ->
  (exists s, l !! i = Some s /\ PubSub.matches tok s) /\
  (length (filter (PubSub.matches tok) l) = 1%nat ->
   splice (Z.of_nat i) 1 l = filter (fun s => ~ PubSub.matches tok s) l).
Proof.
  revert i. induction l as [|s l IH]; intros i; simpl; [discriminate|].
  destruct (decide (PubSub.matches tok s)) as [Hm|Hm].
  - intros [= <-]. split; [exists s; split; [reflexivity | exact Hm]|].
    rewrite filter_cons_True by exact Hm. simpl. intros Hone.
    rewrite filter_cons_False by (intros Hn; exact (Hn Hm)).
    rewrite splice_of_nat. simpl. rewrite drop_0.
    assert (Hnil : filter (PubSub.matches tok) l = [])
      by (apply length_zero_iff_nil; lia).
    symmetry. apply filter_none_matches.
    apply Forall_forall. intros x Hx Hmx.
    assert (Hin : x ∈ filter (PubSub.matches tok) l)
      by (apply list_elem_of_filter; split; [exact Hmx | exact Hx]).
    rewrite Hnil in Hin. inversion Hin.
  - destruct (PubSub.find_token tok l) as [j|] eqn:Ej; simpl; [|discriminate].
    intros [= <-]. destruct (IH j eq_refl) as [Hat Hsplice].
    split; [exact Hat|].
    rewrite filter_cons_False by exact Hm. intros Hone.
    rewrite filter_cons_True by exact Hm.
    rewrite splice_of_nat. simpl.
    rewrite <- (Hsplice Hone), splice_of_nat. reflexivity.
Qed.

Lemma without_none_matches tok ts :
  Forall (fun s => ~ PubSub.matches tok s) (concat (map snd ts)) ->
  PubSub.without tok ts = ts /\ PubSub.scan tok ts = None.
Proof.
  induction ts as [|[m l] ts IH]; simpl; [split; reflexivity|].
  intros Hall. apply Forall_app in Hall as [Hl Hts].
  destruct (IH Hts) as [IH1 IH2].
  destruct (filter_none_matches tok l Hl) as [Hfl _].
  apply find_token_None in Hl. rewrite Hl, IH2.
  unfold PubSub.without in *. simpl. rewrite Hfl, IH1.
  split; reflexivity.
Qed.

Lemma scan_unique tok ts :
  length (filter (PubSub.matches tok) (concat (map snd ts))) = 1%nat ->
  PubSub.scan tok ts = Some (PubSub.without tok ts).
Proof.
  induction ts as [|[m l] ts IH]; simpl; [discriminate|].
  rewrite filter_app, length_app. intros Hone.
  destruct (PubSub.find_token tok l) as [i|] eqn:Ef.
  - destruct (find_token_Some tok l i Ef) as [(s & Hs & Hm) Hsplice].
    assert (Hpos : (0 < length (filter (PubSub.matches tok) l))%nat).
    { apply list_elem_of_lookup_2 in Hs.
      assert (Hin : s ∈ filter (PubSub.matches tok) l)
        by (apply list_elem_of_filter; split; assumption).
      destruct (filter (PubSub.matches tok) l); [inversion Hin | simpl; lia]. }
    rewrite Hsplice by lia.
    assert (Hrest : Forall (fun s => ~ PubSub.matches tok s) (concat (map snd ts))).
    { apply Forall_forall. intros x Hx Hmx.
      assert (Hin : x ∈ filter (PubSub.matches tok) (concat (map snd ts)))
        by (apply list_elem_of_filter; split; assumption).
      destruct (filter (PubSub.matches tok) (concat (map snd ts)));
        [inversion Hin | simpl in Hone; lia]. }
    destruct (without_none_matches tok ts Hrest) as [-> _]. reflexivity.
  - apply find_token_None in Ef.
    destruct (filter_none_matches tok l Ef) as [Hfl Hnil].
    rewrite Hnil in Hone. simpl in Hone.
    rewrite (IH Hone). simpl. rewrite Hfl. reflexivity.
Qed.
End Unsubscribe.

Section UnsubscribeFacts.
Context {H : Type}.
Implicit Types (w : PubSub.world H) (tok : value).

Lemma own_without tok ts topic :
  PubSub.own topic (PubSub.without tok ts) =
  filter (fun s => ~ PubSub.matches tok s) <$> PubSub.own topic ts.
Proof.
  induction ts as [|[m l] ts IH]; simpl; [reflexivity|].
  destruct (decide (m = topic)); [reflexivity | exact IH].
Qed.

Lemma subscriptions_without tok ts :
  concat (map snd (PubSub.without tok ts)) =
  filter (fun s => ~ PubSub.matches tok s) (concat (map snd ts)).
Proof.
  induction ts as [|[m l] ts IH]; simpl; [reflexivity|].
  rewrite filter_app. f_equal. exact IH.
Qed.

Lemma length_filter_split tok (l : list PubSub.subscription) :
  (length (filter (PubSub.matches tok) l) +
   length (filter (fun s => ~ PubSub.matches tok s) l) = length l)%nat.
Proof.
  induction l as [|s l IH]; [reflexivity|].
  destruct (decide (PubSub.matches tok s)) as [Hm|Hm].
  - rewrite filter_cons_True by exact Hm.
    rewrite filter_cons_False by (intros Hn; exact (Hn Hm)). simpl. lia.
  - rewrite filter_cons_False by exact Hm.
    rewrite filter_cons_True by exact Hm. simpl. lia.
Qed.
End UnsubscribeFacts.

(** C4 (as the code has it). When no subscription of any topic carries the
    token, [unsubscribe] returns [this], the broker object itself, and the
    registry, the counter and the rest of the state are left as they were. *)
Theorem unsubscribe_unknown {H : Type} (tok : value) (w : PubSub.world H) :
  Forall (fun s => ~ PubSub.matches tok s) (PubSub.subscriptions w) ->
  PubSub.unsubscribe tok w = (Normal VThis, w).
Proof.
  intros Hnone. unfold PubSub.unsubscribe.
  destruct (without_none_matches tok (PubSub.topics w) Hnone) as [_ ->].
  reflexivity.
Qed.

Lemma unsubscribe_unknown_witness :
  PubSub.unsubscribe (VStr "9") Scenario.clicks_and_keys
  = (Normal VThis, Scenario.clicks_and_keys).
Proof.
  apply (unsubscribe_unknown (VStr "9") Scenario.clicks_and_keys).
  vm_compute. repeat constructor; discriminate.
Defined.

(** C4 as the specification states it fails: for a token that no
    subscription carries, the value returned is the broker handle and not
    a value distinct from it. *)
Lemma unsubscribe_unknown_returns_handle :
  ~ (Forall (fun s => ~ PubSub.matches (VStr "9") s)
       (PubSub.subscriptions Scenario.clicks_and_keys) ->
     exists v, (PubSub.unsubscribe (VStr "9") Scenario.clicks_and_keys).1 = Normal v
               /\ v <> VThis).
Proof.
  intros Hclaim. destruct Hclaim as (v & Hret & Hv).
  - vm_compute. repeat constructor; discriminate.
  - vm_compute in Hret. congruence.
Qed.

(** C5. When exactly one subscription of the registry carries the token,
    [unsubscribe] returns the token and removes that subscription: every
    topic keeps its other entries in their order, the registry holds one
    subscription less, and nothing else changes. *)
Theorem unsubscribe_unique {H : Type} (tok : value) (w : PubSub.world H) :
  length (filter (PubSub.matches tok) (PubSub.subscriptions w)) = 1%nat ->
  let r := PubSub.unsubscribe tok w in
  r.1 = Normal tok /\
  PubSub.topics r.2 = PubSub.without tok (PubSub.topics w) /\
  (forall topic,
     PubSub.own topic (PubSub.topics r.2) =
     filter (fun s => ~ PubSub.matches tok s) <$> PubSub.own topic (PubSub.topics w)) /\
  PubSub.subscriptions r.2 =
    filter (fun s => ~ PubSub.matches tok s) (PubSub.subscriptions w) /\
  S (length (PubSub.subscriptions r.2)) = length (PubSub.subscriptions w) /\
  PubSub.subUid r.2 = PubSub.subUid w /\
  PubSub.user r.2 = PubSub.user w.
Proof.
  intros Hone r. subst r. unfold PubSub.unsubscribe.
  rewrite (scan_unique tok (PubSub.topics w) Hone). simpl.
  split; [reflexivity|]. split; [reflexivity|].
  split; [intros topic; apply own_without|].
  unfold PubSub.subscriptions in *. simpl.
  rewrite subscriptions_without.
  split; [reflexivity|]. split; [|split; reflexivity].
  pose proof (length_filter_split tok (concat (map snd (PubSub.topics w)))). lia.
Qed.

Lemma unsubscribe_unique_witness :
  (PubSub.unsubscribe (VStr "1") Scenario.clicks_and_keys).1 = Normal (VStr "1") /\
  PubSub.topics (PubSub.unsubscribe (VStr "1") Scenario.clicks_and_keys).2
  = [("clicks", [PubSub.Subscription "0" 1%nat]);
     ("keys", [PubSub.Subscription "2" 3%nat])].
Proof.
  destruct (unsubscribe_unique (VStr "1") Scenario.clicks_and_keys) as (Hr & Ht & _).
  - vm_compute. reflexivity.
  - split; [exact Hr|]. rewrite Ht. vm_compute. reflexivity.
Defined.

(** ** The registry invariant *)

Section RegistryInvariant.
Context {H : Type}.
Implicit Types (w : PubSub.world H) (ts : PubSub.registry)
  (l : list PubSub.subscription).

Lemma get_array ts topic l :
  PubSub.get ts topic = PubSub.SArray l -> PubSub.own topic ts = Some l.
Proof.
  unfold PubSub.get. destruct (PubSub.own topic ts) as [l'|].
  - congruence.
  - destruct (objectPrototype topic); discriminate.
Qed.

Lemma subscriptions_push ts topic l x :
  PubSub.own topic ts = Some l ->
  concat (map snd (PubSub.update topic (fun l => l ++ [x]) ts))
  ≡ₚ x :: concat (map snd ts).
Proof.
  induction ts as [|[m l'] ts IH]; simpl; [discriminate|].
  destruct (decide (m = topic)) as [_|_]; simpl.
  - intros _. rewrite <- app_assoc. simpl. symmetry. apply Permutation_middle.
  - intros Hown. rewrite (IH Hown). symmetry. apply Permutation_middle.
Qed.

Lemma subscriptions_new_topic ts topic :
  concat (map snd (ts ++ [(topic, [])])) = concat (map snd ts).
Proof. rewrite map_app, concat_app. simpl. apply app_nil_r. Qed.

(** [subscribe] adds the subscription with the new token, or nothing when
    it throws. *)
Lemma subscribe_subscriptions topic f w :
  let w' := (PubSub.subscribe topic f w).2 in
  PubSub.subscriptions w' ≡ₚ PubSub.subscriptions w \/
  PubSub.subscriptions w'
  ≡ₚ PubSub.Subscription (toString (increment (PubSub.subUid w))) f
     :: PubSub.subscriptions w.
Proof.
  unfold PubSub.subscribe, PubSub.subscriptions.
  set (ts := match PubSub.get (PubSub.topics w) topic with
             | PubSub.SUndefined => PubSub.topics w ++ [(topic, [])]
             | _ => PubSub.topics w
             end).
  assert (Hts : concat (map snd ts) = concat (map snd (PubSub.topics w))).
  { subst ts. destruct (PubSub.get (PubSub.topics w) topic); try reflexivity.
    apply subscriptions_new_topic. }
  destruct (PubSub.get ts topic) as [l| |] eqn:Hget; simpl.
  - right. rewrite (subscriptions_push ts topic l _ (get_array _ _ _ Hget)), Hts.
    reflexivity.
  - left. rewrite Hts. reflexivity.
  - left. rewrite Hts. reflexivity.
Qed.

Lemma splice_sublist {A} (i : nat) (l : list A) :
  splice (Z.of_nat i) 1 l `sublist_of` l.
Proof.
  rewrite splice_of_nat, Nat.add_1_r, <- delete_take_drop. apply sublist_delete.
Qed.

Lemma scan_sublist tok ts ts' :
  PubSub.scan tok ts = Some ts' ->
  concat (map snd ts') `sublist_of` concat (map snd ts).
Proof.
  revert ts'. induction ts as [|[m l] ts IH]; intros ts'; simpl; [discriminate|].
  destruct (PubSub.find_token tok l) as [i|].
  - intros [= <-]. simpl. apply sublist_app; [apply splice_sublist | reflexivity].
  - destruct (PubSub.scan tok ts) as [ts1|]; simpl; [|discriminate].
    intros [= <-]. simpl. apply sublist_app; [reflexivity | apply IH; reflexivity].
Qed.

Lemma init_tokens_distinct (h : H) : PubSub.tokens_distinct (PubSub.init h).
Proof. split; constructor. Qed.

Lemma subscribe_tokens_distinct topic f w :
  PubSub.subUid w < max_safe ->
  PubSub.tokens_distinct w -> PubSub.tokens_distinct (PubSub.subscribe topic f w).2.
Proof.
  intros Hb [Hnd Hall]. unfold PubSub.tokens_distinct.
  pose proof (subscribe_subscriptions topic f w) as Hsubs.
  rewrite subscribe_subUid. rewrite increment_below in * by exact Hb.
  assert (Hall' : Forall (fun s => exists n, PubSub.token s = toString n /\
                            n <= PubSub.subUid w + 1) (PubSub.subscriptions w)).
  { eapply Forall_impl; [exact Hall|]. simpl.
    intros s (n & Hn & Hle). exists n. split; [exact Hn | lia]. }
  destruct Hsubs as [Hp|Hp]; rewrite Hp.
  - split; assumption.
  - split.
    + rewrite fmap_cons. apply NoDup_cons. split; [|exact Hnd]. simpl.
      intros Hin. apply list_elem_of_fmap in Hin as (s & Hs & Hin).
      rewrite Forall_forall in Hall. destruct (Hall s Hin) as (n & Hn & Hle).
      rewrite Hn in Hs. apply toString_inj in Hs. lia.
    + constructor; [|exact Hall'].
      exists (PubSub.subUid w + 1). split; [reflexivity | lia].
Qed.

Lemma unsubscribe_tokens_distinct tok w :
  PubSub.tokens_distinct w -> PubSub.tokens_distinct (PubSub.unsubscribe tok w).2.
Proof.
  intros [Hnd Hall]. unfold PubSub.unsubscribe.
  destruct (PubSub.scan tok (PubSub.topics w)) as [ts'|] eqn:Es; [|split; assumption].
  pose proof (scan_sublist tok _ _ Es) as Hsub.
  unfold PubSub.tokens_distinct, PubSub.subscriptions in *. simpl. split.
  - eapply sublist_NoDup; [exact Hnd|]. apply fmap_sublist, Hsub.
  - eapply Forall_forall. intros s Hs. rewrite Forall_forall in Hall.
    apply Hall. eapply elem_of_sublist; [exact Hs | exact Hsub].
Qed.

(** The invariant holds in every state a client can bring the broker to
    while the counter stays within 2^53. *)
Lemma run_tokens_distinct rs : forall w,
  PubSub.subUid w + PubSub.subscribe_calls rs <= max_safe ->
  PubSub.tokens_distinct w -> PubSub.tokens_distinct (PubSub.run rs w).2.
Proof.
  induction rs as [|r rs IH]; intros w Hb Hw; cbn [PubSub.run]; [exact Hw|].
  pose proof (subscribe_calls_nonneg rs) as Hnn.
  destruct (PubSub.serve r w) as [c w1] eqn:E.
  specialize (IH w1). destruct (PubSub.run rs w1) as [log w2]. cbn [snd] in *.
  replace w1 with (PubSub.serve r w).2 in * by (rewrite E; reflexivity).
  destruct r as [topic f|tok]; cbn [PubSub.serve PubSub.subscribe_calls] in *.
  - apply IH.
    + rewrite subscribe_subUid, increment_below by lia. lia.
    + apply subscribe_tokens_distinct; [lia | exact Hw].
  - apply IH.
    + rewrite unsubscribe_subUid. lia.
    + apply unsubscribe_tokens_distinct, Hw.
Qed.

(** Under the invariant a token matches one subscription at most, so that
    [unsubscribe] meets either no match or a single one. *)
Lemma tokens_distinct_at_most_one tok w :
  PubSub.tokens_distinct w ->
  (length (filter (PubSub.matches tok) (PubSub.subscriptions w)) <= 1)%nat.
Proof.
  intros [Hnd _]. induction (PubSub.subscriptions w) as [|s l IH]; [simpl; lia|].
  rewrite fmap_cons in Hnd. apply NoDup_cons in Hnd as [Hnot Hnd].
  destruct (decide (PubSub.matches tok s)) as [Hm|Hm].
  - rewrite filter_cons_True by exact Hm. simpl.
    destruct (filter (PubSub.matches tok) l) as [|s' l'] eqn:Ef; [simpl; lia|].
    exfalso. apply Hnot.
    assert (Hin : s' ∈ filter (PubSub.matches tok) l) by (rewrite Ef; left).
    apply list_elem_of_filter in Hin as [Hm' Hin].
    apply list_elem_of_fmap. exists s'. split; [|exact Hin].
    unfold PubSub.matches in Hm, Hm'. congruence.
  - rewrite filter_cons_False by exact Hm. apply IH, Hnd.
Qed.
End RegistryInvariant.

(** ** Subject: removing an observer *)

Section RemoveObserver.
Context {H : Type}.
Implicit Types (s : Subject.subject H) (l : ObserverList.observerList) (o : objref).

Lemma indexOf_from_absent o l i :
  o ∉ l -> ObserverList.indexOf_from o l i = -1.
Proof.
  revert i. induction l as [|x l IH]; intros i Hnot; simpl; [reflexivity|].
  destruct (decide (x = o)) as [->|Hne].
  - exfalso. apply Hnot. left.
  - apply IH. intros Hin. apply Hnot. right. exact Hin.
Qed.

Lemma indexOf_zero o l :
  ObserverList.indexOf o 0 l = ObserverList.indexOf_from o l 0.
Proof. reflexivity. Qed.

Lemma indexOf_absent o l : o ∉ l -> ObserverList.indexOf o 0 l = -1.
Proof. intros Hnot. rewrite indexOf_zero. apply indexOf_from_absent, Hnot. Qed.

Lemma indexOf_from_present o l i :
  o ∈ l -> exists k : nat, ObserverList.indexOf_from o l i = i + Z.of_nat k /\
    l !! k = Some o /\ o ∉ take k l.
Proof.
  revert i. induction l as [|x l IH]; intros i Hin; [inversion Hin|]. simpl.
  destruct (decide (x = o)) as [->|Hne].
  - exists 0%nat. split; [lia|]. split; [reflexivity|]. simpl. inversion 1.
  - assert (Hin' : o ∈ l) by (inversion Hin; [congruence | assumption]).
    destruct (IH (i + 1) Hin') as (k & Hk & Hat & Hbefore).
    exists (S k). split; [lia|]. split; [exact Hat|]. simpl.
    intros Hx. inversion Hx; [congruence | contradiction].
Qed.

(** [splice(-1, 1)] takes the last element away. *)
Lemma splice_minus_one {A} (l : list A) : splice (-1) 1 l = removelast l.
Proof.
  unfold splice. simpl.
  destruct l as [|x l] using rev_ind; [reflexivity|].
  rewrite removelast_last, length_app. simpl.
  replace (Z.to_nat (Z.max (Z.of_nat (length l + 1) + (-1)) 0)) with (length l) by lia.
  rewrite take_app_length, drop_ge by (rewrite length_app; simpl; lia).
  apply app_nil_r.
Qed.

(** What [removeObserver] does with an observer that was never added: the
    last observer of the list is removed in its place. *)
Lemma removeObserver_absent o s :
  o ∉ Subject.observers s ->
  Subject.observers (Subject.removeObserver o s) = removelast (Subject.observers s).
Proof.
  intros Hnot. unfold Subject.removeObserver, ObserverList.removeAt.
  cbn [Subject.observers].
  rewrite (indexOf_absent o _ Hnot). apply splice_minus_one.
Qed.

(** For an observer of the list, its first occurrence is removed. *)
Lemma removeObserver_present o s :
  o ∈ Subject.observers s ->
  exists k, Subject.observers s !! k = Some o /\ (o ∉ take k (Subject.observers s)) /\
    Subject.observers (Subject.removeObserver o s) = delete k (Subject.observers s).
Proof.
  intros Hin. unfold Subject.removeObserver, ObserverList.removeAt.
  cbn [Subject.observers]. rewrite indexOf_zero.
  destruct (indexOf_from_present o _ 0 Hin) as (k & -> & Hat & Hbefore).
  exists k. split; [exact Hat|]. split; [exact Hbefore|].
  rewrite Z.add_0_l, splice_of_nat, Nat.add_1_r. symmetry. apply delete_take_drop.
Qed.
End RemoveObserver.

(** C8 at a failing input: removing the observer 3, which was never added,
    from a subject observed by 1 and 2 removes the observer 2. *)
Theorem removeObserver_absent_removes_last :
  Subject.observers (Subject.removeObserver 3%nat Scenario.two_observers) = [1%nat].
Proof. reflexivity. Qed.

(** ** Click: unsubscribing a handler *)

Section ClickFacts.
Context {H : Type}.
Implicit Types (c : Click.click H) (fn : funref).

Lemma click_filter fn (l : list funref) :
  List.filter (fun item => truthy (Click.keep fn item)) l
  = filter (fun item => item <> fn) l.
Proof.
  induction l as [|x l IH]; [reflexivity|]. simpl.
  unfold Click.keep at 1. destruct (decide (x <> fn)) as [Hne|Heq]; simpl.
  - rewrite filter_cons_True by exact Hne. f_equal. exact IH.
  - rewrite filter_cons_False by exact Heq. exact IH.
Qed.

(** [fire] calls the handlers that were registered when it was entered,
    in their order, up to the first one that throws. *)
Lemma fire_loop_trace call o scope (items : list funref) : forall c tr,
  exists k,
    Click.handler <$> Click.trace (Click.fire_loop call o scope items c tr)
    = (Click.handler <$> tr) ++ take k items /\
    (forall v, Click.ret (Click.fire_loop call o scope items c tr) = Normal v ->
               k = length items).
Proof.
  induction items as [|item rest IH]; intros c tr; simpl.
  - exists 0%nat. split; [rewrite app_nil_r; reflexivity | reflexivity].
  - destruct (call item scope o c) as [r c'].
    destruct r as [v|e].
    + destruct (IH c' (tr ++ [Click.Event item scope o (Normal v)])) as (k & Hk & Hret).
      exists (S k). split.
      * rewrite Hk, fmap_app, <- app_assoc. reflexivity.
      * intros v' Hv'. f_equal. exact (Hret v' Hv').
    + exists 1%nat. simpl. split; [|discriminate].
      rewrite fmap_app, take_0. reflexivity.
Qed.
End ClickFacts.

(** C9. [unsubscribe(fn)] of Click keeps exactly the handlers other than
    [fn], in their order, however often [fn] was subscribed; a [fire] that
    follows never calls [fn], whatever the handlers do. *)
Theorem click_unsubscribe_removes_all {H : Type} (fn : funref) (c : Click.click H) :
  let c' := Click.unsubscribe fn c in
  Click.handlers c' = filter (fun item => item <> fn) (Click.handlers c) /\
  (fn ∉ Click.handlers c') /\
  Click.user c' = Click.user c /\
  forall call o thisObj,
    Forall (fun e => Click.handler e <> fn) (Click.trace (Click.fire call o thisObj c')).
Proof.
  intros c'. subst c'.
  assert (Heq : Click.handlers (Click.unsubscribe fn c)
                = filter (fun item => item <> fn) (Click.handlers c))
    by apply click_filter.
  assert (Hnot : fn ∉ Click.handlers (Click.unsubscribe fn c)).
  { rewrite Heq. intros Hin. apply list_elem_of_filter in Hin as [Hne _].
    apply Hne. reflexivity. }
  split; [exact Heq|]. split; [exact Hnot|]. split; [reflexivity|].
  intros call o thisObj. unfold Click.fire.
  match goal with |- context [Click.fire_loop call o ?scope ?items ?c0 []] =>
    destruct (fire_loop_trace call o scope items c0 []) as (k & Hk & _) end.
  rewrite fmap_nil, app_nil_l in Hk.
  apply Forall_forall. intros e He Hfn.
  apply Hnot.
  assert (Hin : Click.handler e ∈ take k (Click.handlers (Click.unsubscribe fn c))).
  { rewrite <- Hk. apply list_elem_of_fmap. exists e. split; [reflexivity | exact He]. }
  rewrite Hfn in Hin. eapply subseteq_take. exact Hin.
Qed.

Example click_unsubscribe_twice_subscribed :
  Click.handlers (Click.unsubscribe 7%nat
    {| Click.handlers := [7; 4; 7; 5; 7]%nat; Click.user := tt |}) = [4; 5]%nat.
Proof. reflexivity. Qed.

(** ** Delivery by [pubsub.publish] *)

Lemma take_le_eq {A} (k n : nat) (l1 l2 : list A) :
  (k <= n)%nat -> take n l1 = take n l2 -> take k l1 = take k l2.
Proof.
  intros Hle Heq. replace k with (min k n) by lia.
  rewrite <- !take_take, Heq. reflexivity.
Qed.

Section PublishLoop.
Context {H : Type}.
Variable call : PubSub.behaviour H.
Variables (topic : string) (args : value).
Implicit Types (w : PubSub.world H) (l : list PubSub.subscription).

(** The loop walks the array from index [len - 1] down to 0 and finds
    there the initial entries, as long as each callback leaves the
    entries before its own in place. *)
Lemma publish_loop_keeps_earlier l0 (Hcall : PubSub.keeps_earlier call topic args l0) :
  forall (len : nat) w tr,
    (len <= length l0)%nat ->
    take len (PubSub.subscribers w topic) = take len l0 ->
    Forall (PubSub.delivered topic args) tr ->
    let r := PubSub.publish_loop call topic args len w tr in
    PubSub.ret r = Normal VThis /\
    PubSub.target <$> PubSub.trace r
      = (PubSub.target <$> tr) ++ reverse (take len l0) /\
    Forall (PubSub.delivered topic args) (PubSub.trace r).
Proof.
  induction len as [|len IH]; intros w tr Hlen Htake Htr; simpl.
  - rewrite take_0, reverse_nil, app_nil_r. repeat split. exact Htr.
  - destruct (lookup_lt_is_Some_2 l0 len) as [s Hs]; [lia|].
    assert (Hw : PubSub.subscribers w topic !! len = Some s).
    { rewrite <- (lookup_take_lt _ (S len)) by lia.
      rewrite Htake, lookup_take_lt by lia. exact Hs. }
    rewrite Hw.
    destruct (Hcall len s w Hs Htake) as (v & w' & -> & Hkeep).
    destruct (IH w' (tr ++ [PubSub.Event s [VStr topic; args] (Normal v)]))
      as (Hret & Htargets & Hdel).
    + lia.
    + exact Hkeep.
    + apply Forall_app. split; [exact Htr|].
      constructor; [|constructor]. split; [reflexivity | exists v; reflexivity].
    + split; [exact Hret|]. split; [|exact Hdel].
      rewrite Htargets, fmap_app, <- app_assoc. simpl.
      rewrite (take_S_r _ _ _ Hs), reverse_app. reflexivity.
Qed.

Lemma get_own w l :
  PubSub.own topic (PubSub.topics w) = Some l ->
  PubSub.get (PubSub.topics w) topic = PubSub.SArray l /\
  PubSub.subscribers w topic = l.
Proof.
  intros Hown. unfold PubSub.get, PubSub.subscribers. rewrite Hown.
  split; reflexivity.
Qed.

(** [publish] under callbacks that keep the earlier entries in place:
    every entry the array had at the start is called once, from the last
    to the first. *)
Lemma publish_keeps_earlier w l0 :
  PubSub.own topic (PubSub.topics w) = Some l0 ->
  PubSub.keeps_earlier call topic args l0 ->
  let r := PubSub.publish call topic args w in
  PubSub.ret r = Normal VThis /\
  PubSub.target <$> PubSub.trace r = reverse l0 /\
  Forall (PubSub.delivered topic args) (PubSub.trace r).
Proof.
  intros Hown Hcall. destruct (get_own w l0 Hown) as [Hget Hsubs].
  unfold PubSub.publish. rewrite Hget.
  destruct (publish_loop_keeps_earlier l0 Hcall (length l0) w [])
    as (Hret & Htargets & Hdel).
  - lia.
  - rewrite Hsubs. reflexivity.
  - constructor.
  - rewrite take_ge in Htargets by lia.
    split; [exact Hret|]. split; [exact Htargets | exact Hdel].
Qed.

Lemma inert_keeps_earlier l0 :
  Forall (fun s => PubSub.inert call (PubSub.func s)) l0 ->
  PubSub.keeps_earlier call topic args l0.
Proof.
  intros Hinert k s w Hs Htake.
  rewrite Forall_forall in Hinert.
  destruct (Hinert s (list_elem_of_lookup_2 _ _ _ Hs) [VStr topic; args] w)
    as (v & h & Hc).
  exists v. eexists. split; [exact Hc|].
  unfold PubSub.subscribers in *. simpl.
  apply (take_le_eq k (S k)); [lia | exact Htake].
Qed.
End PublishLoop.

Section PublishReturn.
Context {H : Type}.
Variable call : PubSub.behaviour H.
Variables (topic : string) (args : value).

(** The loop ends with [return this] or with the exception of a call. *)
Lemma publish_loop_ret (len : nat) : forall (w : PubSub.world H) tr v,
  PubSub.ret (PubSub.publish_loop call topic args len w tr) = Normal v -> v = VThis.
Proof.
  induction len as [|len IH]; intros w tr v; simpl.
  - congruence.
  - destruct (PubSub.subscribers w topic !! len) as [s|]; [|discriminate].
    destruct (call (PubSub.func s) [VStr topic; args] w) as [[v'|e] w'].
    + apply IH.
    + discriminate.
Qed.

(** [return false] is the first statement alone: past it, [publish]
    returns [this] or throws. *)
Lemma publish_ret_this (w : PubSub.world H) v :
  PubSub.get (PubSub.topics w) topic <> PubSub.SUndefined ->
  PubSub.ret (PubSub.publish call topic args w) = Normal v ->
  v = VThis.
Proof.
  unfold PubSub.publish.
  destruct (PubSub.get (PubSub.topics w) topic) as [l|[[|n]|]|]; simpl; intros Hdef.
  - intros Hr. exact (publish_loop_ret _ _ _ _ Hr).
  - intros [= <-]. reflexivity.
  - discriminate.
  - intros [= <-]. reflexivity.
  - contradiction.
Qed.

Lemma publish_ret (w : PubSub.world H) v :
  PubSub.ret (PubSub.publish call topic args w) = Normal v ->
  v = VBool false \/ v = VThis.
Proof.
  unfold PubSub.publish.
  destruct (PubSub.get (PubSub.topics w) topic) as [l|[[|n]|]|]; simpl.
  - intros Hr. right. exact (publish_loop_ret _ _ _ _ Hr).
  - intros [= <-]. right. reflexivity.
  - discriminate.
  - intros [= <-]. right. reflexivity.
  - intros [= <-]. left. reflexivity.
Qed.
End PublishReturn.

Section ContainerPublish.
Context {H : Type}.
Variable call : Container.behaviour H.
Variable data : value.

Lemma container_publish_loop_ret (l : list Container.subscriber) :
  forall (w : Container.world H) tr v,
  Container.ret (Container.publish_loop call data l w tr) = Normal v -> v = VUndefined.
Proof.
  induction l as [|s l IH]; intros w tr v; simpl.
  - congruence.
  - destruct (call (Container.callback s) [data] (Container.user w)) as [[v'|e] h].
    + apply IH.
    + discriminate.
Qed.

(** The container calls the subscribers of the array from the first to
    the last. *)
Lemma container_publish_loop (l : list Container.subscriber) :
  Forall (fun s => Container.returns call (Container.callback s)) l ->
  forall (w : Container.world H) tr,
    Forall (Container.delivered data) tr ->
    let r := Container.publish_loop call data l w tr in
    Container.ret r = Normal VUndefined /\
    Container.target <$> Container.trace r = (Container.target <$> tr) ++ l /\
    Forall (Container.delivered data) (Container.trace r).
Proof.
  induction 1 as [|s l Hs _ IH]; intros w tr Htr; simpl.
  - rewrite app_nil_r. repeat split. exact Htr.
  - destruct (Hs [data] (Container.user w)) as (v & h & ->).
    edestruct IH as (Hret & Htargets & Hdel);
      [|split; [exact Hret|]; split; [|exact Hdel]].
    + apply Forall_app. split; [exact Htr|].
      constructor; [|constructor]. split; [reflexivity | exists v; reflexivity].
    + rewrite Htargets, fmap_app, <- app_assoc. reflexivity.
Qed.
End ContainerPublish.

(** C1 (as the code has it). When the callbacks subscribed to a topic
    return and leave the broker alone, [pubsub.publish(topic, args)] calls
    every subscription of the topic once with the arguments
    [(topic, args)], from the one subscribed last to the one subscribed
    first, and returns. The container of part_002 calls every subscriber of
    the topic once, from first to last, with [data] as the only argument. *)
Theorem publish_calls_each_once {H : Type} :
  (forall (call : PubSub.behaviour H) topic args w l,
     PubSub.own topic (PubSub.topics w) = Some l ->
     Forall (fun s => PubSub.inert call (PubSub.func s)) l ->
     let r := PubSub.publish call topic args w in
     PubSub.ret r = Normal VThis /\
     PubSub.target <$> PubSub.trace r = reverse l /\
     Forall (PubSub.delivered topic args) (PubSub.trace r)) /\
  (forall (call : Container.behaviour H) data topic w l,
     Container.get (Container.topics w) topic = Container.SArray l ->
     Forall (fun s => Container.returns call (Container.callback s)) l ->
     let r := Container.publish call data topic w in
     Container.ret r = Normal VUndefined /\
     Container.target <$> Container.trace r = l /\
     Forall (Container.delivered data) (Container.trace r)).
Proof.
  split.
  - intros call topic args w l Hown Hinert.
    apply publish_keeps_earlier; [exact Hown|].
    apply inert_keeps_earlier, Hinert.
  - intros call data topic w l Hget Hret. unfold Container.publish. rewrite Hget.
    apply (container_publish_loop call data l Hret w []). constructor.
Qed.

Lemma quiet_inert f : PubSub.inert Scenario.quiet f.
Proof. intros args [ts uid []]. exists VUndefined, tt. reflexivity. Qed.

Lemma container_quiet_returns f : Container.returns Scenario.container_quiet f.
Proof. intros args h. exists VUndefined, h. reflexivity. Qed.

Lemma publish_calls_each_once_witness :
  PubSub.target <$> PubSub.trace
    (PubSub.publish Scenario.quiet "clicks" (VNum 1) Scenario.clicks_and_keys)
  = [PubSub.Subscription "1" 2%nat; PubSub.Subscription "0" 1%nat] /\
  Container.target <$> Container.trace
    (Container.publish Scenario.container_quiet (VNum 1) "clicks"
       Scenario.container_clicks_and_keys)
  = [Container.Subscriber 1 1%nat; Container.Subscriber 2 2%nat].
Proof.
  destruct (@publish_calls_each_once unit) as [Hp Hc]. split.
  - refine (proj1 (proj2 (Hp Scenario.quiet "clicks" (VNum 1) Scenario.clicks_and_keys
      [PubSub.Subscription "0" 1%nat; PubSub.Subscription "1" 2%nat] _ _))).
    + vm_compute. reflexivity.
    + repeat constructor; apply quiet_inert.
  - refine (proj1 (proj2 (Hc Scenario.container_quiet (VNum 1) "clicks"
      Scenario.container_clicks_and_keys
      [Container.Subscriber 1 1%nat; Container.Subscriber 2 2%nat] _ _))).
    + vm_compute. reflexivity.
    + repeat constructor; apply container_quiet_returns.
Defined.

(** C1 as the specification states it fails: of two callbacks subscribed to
    "clicks", [pubsub.publish] calls the second first, and the container
    passes its callbacks the payload without the topic. Each callback is
    called once only when the callbacks return and leave the registry
    alone: when the callback called first throws, the other is not called,
    and when it cancels the other's subscription, it is called twice. *)
Lemma publish_first_subscribed_called_last :
  ~ (PubSub.target <$> PubSub.trace
       (PubSub.publish Scenario.quiet "clicks" (VNum 1) Scenario.clicks_and_keys)
     = PubSub.subscribers Scenario.clicks_and_keys "clicks") /\
  ~ (Forall (fun e => Container.arguments e = [VStr "clicks"; VNum 1])
       (Container.trace
          (Container.publish Scenario.container_quiet (VNum 1) "clicks"
             Scenario.container_clicks_and_keys))) /\
  ~ (PubSub.Subscription "0" 1%nat
     ∈ PubSub.target <$> PubSub.trace
         (PubSub.publish Scenario.thrower "clicks" (VNum 1) Scenario.clicks_and_keys)) /\
  ~ (NoDup (PubSub.target <$> PubSub.trace
         (PubSub.publish Scenario.remover "clicks" (VNum 1) Scenario.clicks_and_keys))).
Proof.
  split; [|split; [|split]].
  - vm_compute. discriminate.
  - vm_compute. intros Hall. inversion Hall as [|? ? Hhd _]. discriminate.
  - vm_compute. intros Hin. apply list_elem_of_singleton in Hin. discriminate.
  - vm_compute. intros Hnd. apply NoDup_cons in Hnd as [Hnot _].
    apply Hnot. left.
Qed.

(** C2 (as the code has it). [pubsub.publish] returns [false] when
    [topics[topic]] is undefined, having called nothing, and [this] when
    the topic's array is empty, having called nothing; when
    [topics[topic]] is not undefined, whatever it returns is [this]; so
    whenever it returns, it returns one of the two and no count. The
    container's [publish] throws a TypeError for a topic that has no
    array, and returns [undefined] whenever it returns. *)
Theorem publish_return_value {H : Type} :
  (forall (call : PubSub.behaviour H) topic args w,
     let r := PubSub.publish call topic args w in
     (PubSub.get (PubSub.topics w) topic = PubSub.SUndefined ->
      r = PubSub.Result (Normal (VBool false)) w []) /\
     (PubSub.own topic (PubSub.topics w) = Some [] ->
      r = PubSub.Result (Normal VThis) w []) /\
     (PubSub.get (PubSub.topics w) topic <> PubSub.SUndefined ->
      forall v, PubSub.ret r = Normal v -> v = VThis) /\
     (forall v, PubSub.ret r = Normal v -> v = VBool false \/ v = VThis)) /\
  (forall (call : Container.behaviour H) data topic w,
     let r := Container.publish call data topic w in
     (Container.own topic (Container.topics w) = None ->
      r = Container.Result (Abrupt TypeError) w []) /\
     (forall v, Container.ret r = Normal v -> v = VUndefined)).
Proof.
  split.
  - intros call topic args w r. subst r. split; [|split; [|split]].
    + intros Hget. unfold PubSub.publish. rewrite Hget. reflexivity.
    + intros Hown. unfold PubSub.publish, PubSub.get. rewrite Hown. reflexivity.
    + intros Hdef v. apply publish_ret_this, Hdef.
    + apply publish_ret.
  - intros call data topic w r. subst r. unfold Container.publish, Container.get.
    split.
    + intros Hown. rewrite Hown.
      destruct (Container.is_method topic); [reflexivity|].
      destruct (objectPrototype topic); reflexivity.
    + intros v.
      destruct (Container.is_method topic); [discriminate|].
      destruct (Container.own topic (Container.topics w)) as [l|].
      * apply container_publish_loop_ret.
      * destruct (objectPrototype topic); discriminate.
Qed.

Lemma publish_return_value_witness :
  PubSub.publish Scenario.quiet "news" (VNum 1) Scenario.clicks_and_keys
  = PubSub.Result (Normal (VBool false)) Scenario.clicks_and_keys [] /\
  (forall v,
     PubSub.ret (PubSub.publish Scenario.quiet "clicks" (VNum 1)
                   Scenario.clicks_and_keys) = Normal v -> v = VThis) /\
  Container.publish Scenario.container_quiet (VNum 1) "news"
    Scenario.container_clicks_and_keys
  = Container.Result (Abrupt TypeError) Scenario.container_clicks_and_keys [].
Proof.
  destruct (@publish_return_value unit) as [Hp Hc]. split; [|split].
  - apply (proj1 (Hp Scenario.quiet "news" (VNum 1) Scenario.clicks_and_keys)).
    vm_compute. reflexivity.
  - apply (proj1 (proj2 (proj2
      (Hp Scenario.quiet "clicks" (VNum 1) Scenario.clicks_and_keys)))).
    vm_compute. discriminate.
  - apply (proj1 (Hc Scenario.container_quiet (VNum 1) "news"
      Scenario.container_clicks_and_keys)).
    vm_compute. reflexivity.
Defined.

(** A topic never subscribed to whose name [topics] inherits: [publish]
    reads [Object] as the array of subscribers and fails on its entry 0. *)
Example publish_constructor :
  PubSub.publish Scenario.quiet "constructor" (VNum 1) Scenario.clicks_and_keys
  = PubSub.Result (Abrupt TypeError) Scenario.clicks_and_keys [].
Proof. reflexivity. Qed.

(** C2 as the specification states it fails: [publish] on a topic never
    subscribed to does not return 0, [publish] on a topic with two
    subscribers, both of which it calls, does not return 2, and [publish]
    on the never subscribed topic "constructor" throws. *)
Lemma publish_returns_no_count :
  ~ (PubSub.ret (PubSub.publish Scenario.quiet "news" (VNum 1) Scenario.clicks_and_keys)
     = Normal (VNum 0)) /\
  ~ (let r := PubSub.publish Scenario.quiet "clicks" (VNum 1) Scenario.clicks_and_keys in
     PubSub.ret r = Normal (VNum (Z.of_nat (length (PubSub.trace r))))) /\
  ~ (exists v,
       PubSub.ret (PubSub.publish Scenario.quiet "constructor" (VNum 1)
                     Scenario.clicks_and_keys) = Normal v).
Proof.
  split; [|split].
  - vm_compute. discriminate.
  - vm_compute. discriminate.
  - vm_compute. intros [v Hv]. discriminate.
Qed.

(** ** A callback that throws *)

Section Throwing.
Context {H : Type}.

(** An event logged before the current call returned, so it is not the one
    that threw. *)
Local Ltac returned_before Htr Hi :=
  rewrite Forall_forall in Htr;
  let v := fresh "v" in
  let Hv := fresh "Hv" in
  destruct (Htr _ (list_elem_of_lookup_2 _ _ _ Hi)) as [v Hv]; congruence.

Lemma publish_loop_abrupt (call : PubSub.behaviour H) topic args (len : nat) :
  forall w tr,
    Forall (fun ev => exists v, PubSub.outcome ev = Normal v) tr ->
    let r := PubSub.publish_loop call topic args len w tr in
    forall (i : nat) ev e,
      PubSub.trace r !! i = Some ev -> PubSub.outcome ev = Abrupt e ->
      PubSub.ret r = Abrupt e /\ length (PubSub.trace r) = S i.
Proof.
  induction len as [|len IH]; intros w tr Htr; simpl.
  - intros i ev e Hi He. returned_before Htr Hi.
  - destruct (PubSub.subscribers w topic !! len) as [s|]; simpl.
    + destruct (call (PubSub.func s) [VStr topic; args] w) as [[v|e'] w'].
      * apply IH. apply Forall_app. split; [exact Htr|].
        constructor; [exists v; reflexivity | constructor].
      * simpl. intros i ev e Hi He.
        destruct (decide (i < length tr)%nat) as [Hlt|Hge].
        -- rewrite lookup_app_l in Hi by exact Hlt. returned_before Htr Hi.
        -- rewrite lookup_app_r in Hi by lia.
           destruct (i - length tr)%nat as [|j] eqn:Ej; [|discriminate].
           injection Hi as <-. simpl in He. injection He as <-.
           rewrite length_app. simpl. split; [reflexivity | lia].
    + intros i ev e Hi He. returned_before Htr Hi.
Qed.

Lemma fire_loop_abrupt (call : Click.behaviour H) o scope (items : list funref) :
  forall c tr,
    Forall (fun ev => exists v, Click.outcome ev = Normal v) tr ->
    let r := Click.fire_loop call o scope items c tr in
    forall (i : nat) ev e,
      Click.trace r !! i = Some ev -> Click.outcome ev = Abrupt e ->
      Click.ret r = Abrupt e /\ length (Click.trace r) = S i.
Proof.
  induction items as [|item rest IH]; intros c tr Htr; simpl.
  - intros i ev e Hi He. returned_before Htr Hi.
  - destruct (call item scope o c) as [[v|e'] c'].
    + apply IH. apply Forall_app. split; [exact Htr|].
      constructor; [exists v; reflexivity | constructor].
    + simpl. intros i ev e Hi He.
      destruct (decide (i < length tr)%nat) as [Hlt|Hge].
      * rewrite lookup_app_l in Hi by exact Hlt. returned_before Htr Hi.
      * rewrite lookup_app_r in Hi by lia.
        destruct (i - length tr)%nat as [|j] eqn:Ej; [|discriminate].
        injection Hi as <-. simpl in He. injection He as <-.
        rewrite length_app. simpl. split; [reflexivity | lia].
Qed.
End Throwing.

(** C7 (as the code has it). When a callback throws during [publish], the
    exception leaves [publish]: the call ends with that exception and the
    throwing call is the last one made, so the callbacks not yet called are
    skipped and no list of errors is returned. The same holds for [fire] of
    Click. *)
Theorem throwing_callback_aborts {H : Type} :
  (forall (call : PubSub.behaviour H) topic args w (i : nat) ev e,
     let r := PubSub.publish call topic args w in
     PubSub.trace r !! i = Some ev -> PubSub.outcome ev = Abrupt e ->
     PubSub.ret r = Abrupt e /\ length (PubSub.trace r) = S i) /\
  (forall (call : Click.behaviour H) o thisObj c (i : nat) ev e,
     let r := Click.fire call o thisObj c in
     Click.trace r !! i = Some ev -> Click.outcome ev = Abrupt e ->
     Click.ret r = Abrupt e /\ length (Click.trace r) = S i).
Proof.
  split.
  - intros call topic args w i ev e r. subst r. unfold PubSub.publish.
    destruct (PubSub.get (PubSub.topics w) topic) as [l|[[|n]|]|];
      try (simpl; intros Hi; rewrite lookup_nil in Hi; discriminate).
    apply publish_loop_abrupt. constructor.
  - intros call o thisObj c i ev e r. subst r. unfold Click.fire.
    apply fire_loop_abrupt. constructor.
Qed.

Lemma throwing_callback_aborts_witness :
  PubSub.ret (PubSub.publish Scenario.thrower "clicks" (VNum 1) Scenario.clicks_and_keys)
  = Abrupt (Thrown (VStr "boom")) /\
  Click.ret (Click.fire Scenario.click_thrower (VNum 1) VUndefined
               {| Click.handlers := [1; 2]%nat; Click.user := tt |})
  = Abrupt (Thrown (VStr "boom")).
Proof.
  destruct (@throwing_callback_aborts unit) as [Hp Hf]. split.
  - refine (proj1 (Hp Scenario.thrower "clicks" (VNum 1) Scenario.clicks_and_keys 0%nat
      (PubSub.Event (PubSub.Subscription "1" 2%nat) [VStr "clicks"; VNum 1]
         (Abrupt (Thrown (VStr "boom")))) (Thrown (VStr "boom")) _ _)).
    + vm_compute. reflexivity.
    + reflexivity.
  - refine (proj1 (Hf Scenario.click_thrower (VNum 1) VUndefined
      {| Click.handlers := [1; 2]%nat; Click.user := tt |} 0%nat
      (Click.Event 1%nat Click.window (VNum 1) (Abrupt (Thrown (VStr "boom"))))
      (Thrown (VStr "boom")) _ _)).
    + vm_compute. reflexivity.
    + reflexivity.
Defined.

(** C7 as the specification states it fails: when the callback subscribed
    second throws, [publish] does not return, and the callback subscribed
    first, which was still to be called, is not called. *)
Lemma publish_throw_not_isolated :
  let r := PubSub.publish Scenario.thrower "clicks" (VNum 1) Scenario.clicks_and_keys in
  ~ (exists v, PubSub.ret r = Normal v) /\
  ~ (forall s, s ∈ PubSub.subscribers Scenario.clicks_and_keys "clicks" ->
               s ∈ PubSub.target <$> PubSub.trace r).
Proof.
  split.
  - vm_compute. intros [v Hv]. discriminate.
  - intros Hall.
    specialize (Hall (PubSub.Subscription "0" 1%nat)).
    vm_compute in Hall. 
    assert (Hin : PubSub.Subscription "0" 1%nat
                  ∈ [PubSub.Subscription "1" 2%nat]) by (apply Hall; left).
    apply list_elem_of_singleton in Hin. discriminate.
Qed.

(** ** Notification by [Subject.notify] *)

Section NotifyLoop.
Context {H : Type}.
Variable update : Subject.behaviour H.
Variable ctx : value.
Implicit Types (s : Subject.subject H) (l : ObserverList.observerList).

Lemma get_of_nat (j : nat) l : ObserverList.get (Z.of_nat j) l = l !! j.
Proof.
  unfold ObserverList.get.
  destruct (Z.ltb_spec (-1) (Z.of_nat j)) as [_|Hneg]; [|lia].
  destruct (Z.ltb_spec (Z.of_nat j) (Z.of_nat (length l))) as [Hlt|Hge]; simpl.
  - rewrite Nat2Z.id. reflexivity.
  - symmetry. apply lookup_ge_None. lia.
Qed.

(** The count read at the start bounds the number of calls, whatever the
    observers do. *)
Lemma notify_loop_bound (n : nat) : forall i s tr,
  (length (Subject.trace (Subject.notify_loop update ctx n i s tr)) <= length tr + n)%nat.
Proof.
  induction n as [|n IH]; intros i s tr; simpl.
  - lia.
  - destruct (ObserverList.get i (Subject.observers s)) as [o|]; simpl; [|lia].
    destruct (update o ctx s) as [[v|e] s'].
    + etransitivity; [apply IH|]. rewrite length_app. simpl. lia.
    + simpl. rewrite length_app. simpl. lia.
Qed.

(** While the observers only append, the loop finds the initial observers
    at the indices it visits. *)
Lemma notify_loop_appending l0 (Happ : Subject.only_appends update ctx l0) :
  forall (n j : nat) s tr,
    (j + n = length l0)%nat ->
    l0 `prefix_of` Subject.observers s ->
    let r := Subject.notify_loop update ctx n (Z.of_nat j) s tr in
    exists k : nat,
      (k <= n)%nat /\
      Subject.observer <$> Subject.trace r
        = (Subject.observer <$> tr) ++ take k (drop j l0) /\
      (forall v, Subject.ret r = Normal v -> k = n) /\
      l0 `prefix_of` Subject.observers (Subject.final r).
Proof.
  induction n as [|n IH]; intros j s tr Hlen Hpre; simpl.
  - exists 0%nat. rewrite take_0, app_nil_r. repeat split; [lia | exact Hpre].
  - rewrite get_of_nat.
    destruct (lookup_lt_is_Some_2 l0 j) as [o Ho]; [lia|].
    assert (Hs : Subject.observers s !! j = Some o).
    { rewrite <- Ho. symmetry. apply prefix_lookup_lt; [lia | exact Hpre]. }
    rewrite Hs.
    pose proof (Happ o s (list_elem_of_lookup_2 _ _ _ Ho) Hpre) as Hpre'.
    destruct (update o ctx s) as [[v|e] s']; simpl in Hpre'.
    + replace (Z.of_nat j + 1) with (Z.of_nat (S j)) by lia.
      destruct (IH (S j) s' (tr ++ [Subject.Event o ctx (Normal v)]))
        as (k & Hk & Htrace & Hret & Hfin); [lia | exact Hpre' |].
      exists (S k). split; [lia|]. split; [|split; [|exact Hfin]].
      * rewrite Htrace, fmap_app, <- app_assoc. simpl.
        rewrite (drop_S _ _ _ Ho). reflexivity.
      * intros v' Hv'. f_equal. exact (Hret v' Hv').
    + exists 1%nat. simpl. split; [lia|]. split; [|split; [discriminate | exact Hpre']].
      rewrite fmap_app. simpl. rewrite (drop_S _ _ _ Ho). reflexivity.
Qed.

Lemma notify_appending s :
  Subject.only_appends update ctx (Subject.observers s) ->
  let r := Subject.notify update ctx s in
  Subject.observer <$> Subject.trace r
    = take (length (Subject.trace r)) (Subject.observers s) /\
  (forall v, Subject.ret r = Normal v ->
     Subject.observer <$> Subject.trace r = Subject.observers s) /\
  Subject.observers s `prefix_of` Subject.observers (Subject.final r).
Proof.
  intros Happ. unfold Subject.notify, ObserverList.count. rewrite Nat2Z.id.
  destruct (notify_loop_appending _ Happ (length (Subject.observers s)) 0 s [])
    as (k & Hk & Htrace & Hret & Hfin); [lia | reflexivity |].
  change (Z.of_nat 0) with 0 in *. rewrite fmap_nil, app_nil_l, drop_0 in Htrace.
  assert (Hlen : length (Subject.trace
            (Subject.notify_loop update ctx (length (Subject.observers s)) 0 s [])) = k).
  { rewrite <- (length_fmap Subject.observer), Htrace, length_take. lia. }
  split; [|split; [|exact Hfin]].
  - rewrite Hlen. exact Htrace.
  - intros v Hv. rewrite Htrace, (Hret v Hv). apply take_ge. lia.
Qed.
End NotifyLoop.

(** C10 (as the code has it). [notify] reads the observer count once, before
    the first call: it never makes more calls than there were observers at
    the start, and when the [update] callbacks leave the initial observers
    in place (they may append observers), the calls go to the initial
    observers in their order and to no appended one. *)
Theorem notify_skips_appended {H : Type} (update : Subject.behaviour H)
    (ctx : value) (s : Subject.subject H) :
  let r := Subject.notify update ctx s in
  (length (Subject.trace r) <= length (Subject.observers s))%nat /\
  (Subject.only_appends update ctx (Subject.observers s) ->
   Subject.observer <$> Subject.trace r
     = take (length (Subject.trace r)) (Subject.observers s) /\
   (forall v, Subject.ret r = Normal v ->
      Subject.observer <$> Subject.trace r = Subject.observers s) /\
   Subject.observers s `prefix_of` Subject.observers (Subject.final r)).
Proof.
  intros r. subst r. split.
  - unfold Subject.notify, ObserverList.count. rewrite Nat2Z.id.
    apply (notify_loop_bound update ctx (length (Subject.observers s)) 0 s []).
  - apply notify_appending.
Qed.

Lemma adder_only_appends ctx l0 : Subject.only_appends Scenario.adder ctx l0.
Proof.
  intros o s _ Hpre. unfold Scenario.adder, Subject.addObserver, ObserverList.add.
  simpl. apply prefix_app_r, Hpre.
Qed.

Lemma notify_skips_appended_witness :
  let r := Subject.notify Scenario.adder (VBool true) Scenario.two_observers in
  Subject.observer <$> Subject.trace r = [1; 2]%nat /\
  Subject.observers (Subject.final r) = [1; 2; 9; 9]%nat.
Proof.
  destruct (notify_skips_appended Scenario.adder (VBool true) Scenario.two_observers)
    as [_ Happ].
  destruct (Happ (adder_only_appends _ _)) as (_ & Hall & _).
  split.
  - apply (Hall VUndefined). vm_compute. reflexivity.
  - vm_compute. reflexivity.
Defined.

(** C10 as the specification states it fails: the first of two observers
    replaces itself by the observer 9 during [notify]; the observer 9, in
    the list only since then, is called in the same [notify]. *)
Lemma notify_calls_appended_after_removal :
  let r := Subject.notify Scenario.replacer (VBool true) Scenario.two_observers in
  ~ (Forall (fun e => Subject.observer e ∈ Subject.observers Scenario.two_observers)
       (Subject.trace r)) /\
  Subject.observer <$> Subject.trace r = [1; 9]%nat.
Proof.
  split.
  - vm_compute. intros Hall.
    inversion Hall as [|? ? _ Htl]. inversion Htl as [|? ? Hin _].
    apply elem_of_cons in Hin as [Hin|Hin]; [discriminate|].
    apply list_elem_of_singleton in Hin. discriminate.
  - vm_compute. reflexivity.
Qed.

(** ** Subscribing and unsubscribing while a notification is in flight *)

Section InFlight.
Context {H : Type}.
Implicit Types (w : PubSub.world H) (ts : PubSub.registry)
  (l : list PubSub.subscription) (tok : value).

(** The first match lies behind every stretch of entries without match. *)
Lemma find_token_after tok l (i k : nat) :
  PubSub.find_token tok l = Some i ->
  Forall (fun s => ~ PubSub.matches tok s) (take k l) ->
  (k <= i < length l)%nat.
Proof.
  revert i k. induction l as [|s l IH]; intros i k; simpl; [discriminate|].
  destruct (decide (PubSub.matches tok s)) as [Hm|Hm].
  - intros [= <-] Hall. destruct k as [|k]; [lia|].
    simpl in Hall. inversion Hall; contradiction.
  - destruct (PubSub.find_token tok l) as [j|] eqn:Ej; simpl; [|discriminate].
    intros [= <-] Hall. destruct k as [|k].
    + destruct (IH j 0%nat eq_refl); [constructor | lia].
    + simpl in Hall. inversion Hall as [|? ? _ Hl].
      destruct (IH j k eq_refl Hl). lia.
Qed.

(** [unsubscribe] leaves in place the entries of a topic that come before
    the one it removes. *)
Lemma scan_take tok ts ts' topic (k : nat) :
  PubSub.scan tok ts = Some ts' ->
  Forall (fun s => ~ PubSub.matches tok s) (take k (default [] (PubSub.own topic ts))) ->
  take k (default [] (PubSub.own topic ts')) = take k (default [] (PubSub.own topic ts)).
Proof.
  revert ts'. induction ts as [|[m l] ts IH]; intros ts'; simpl; [discriminate|].
  destruct (PubSub.find_token tok l) as [i|] eqn:Ef.
  - intros [= <-]. simpl.
    destruct (decide (m = topic)) as [_|_]; [|reflexivity]. simpl.
    intros Hall. destruct (find_token_after tok l i k Ef Hall) as [Hki Hil].
    rewrite splice_of_nat, take_app_le by (rewrite length_take; lia).
    rewrite take_take. f_equal. lia.
  - destruct (PubSub.scan tok ts) as [ts1|]; simpl; [|discriminate].
    intros [= <-]. simpl.
    destruct (decide (m = topic)) as [_|_]; [reflexivity|].
    apply IH. reflexivity.
Qed.

Lemma unsubscribe_take tok w topic (k : nat) :
  Forall (fun s => ~ PubSub.matches tok s) (take k (PubSub.subscribers w topic)) ->
  take k (PubSub.subscribers (PubSub.unsubscribe tok w).2 topic)
  = take k (PubSub.subscribers w topic).
Proof.
  unfold PubSub.unsubscribe, PubSub.subscribers.
  destruct (PubSub.scan tok (PubSub.topics w)) as [ts'|] eqn:Es; simpl; [|reflexivity].
  apply scan_take, Es.
Qed.
End InFlight.

Section InFlightState.
Context {H : Type}.

(** The loop of [publish] makes no change of its own: the state it ends
    in is the one the callbacks left, called in the order of the loop. *)
Lemma publish_loop_after (call : PubSub.behaviour H) topic args l0
    (Hcall : PubSub.keeps_earlier call topic args l0) :
  forall (len : nat) (w : PubSub.world H) tr,
    (len <= length l0)%nat ->
    take len (PubSub.subscribers w topic) = take len l0 ->
    PubSub.final (PubSub.publish_loop call topic args len w tr)
    = PubSub.after call topic args (reverse (take len l0)) w.
Proof.
  induction len as [|len IH]; intros w tr Hlen Htake;
    cbn [PubSub.publish_loop].
  - rewrite take_0. reflexivity.
  - destruct (lookup_lt_is_Some_2 l0 len) as [s Hs]; [lia|].
    assert (Hw : PubSub.subscribers w topic !! len = Some s).
    { rewrite <- (lookup_take_lt _ (S len)) by lia.
      rewrite Htake, lookup_take_lt by lia. exact Hs. }
    rewrite Hw.
    destruct (Hcall len s w Hs Htake) as (v & w' & Hc & Hkeep).
    rewrite Hc, (IH w' _ ltac:(lia) Hkeep).
    rewrite (take_S_r _ _ _ Hs), reverse_app. simpl.
    unfold PubSub.after. simpl. rewrite Hc. reflexivity.
Qed.

Lemma publish_after (call : PubSub.behaviour H) topic args (w : PubSub.world H) l0 :
  PubSub.own topic (PubSub.topics w) = Some l0 ->
  PubSub.keeps_earlier call topic args l0 ->
  PubSub.final (PubSub.publish call topic args w)
  = PubSub.after call topic args (reverse l0) w.
Proof.
  intros Hown Hcall. destruct (get_own topic w l0 Hown) as [Hget Hsubs].
  unfold PubSub.publish. rewrite Hget.
  rewrite (publish_loop_after call topic args l0 Hcall (length l0) w []).
  - rewrite take_ge by lia. reflexivity.
  - lia.
  - rewrite Hsubs. reflexivity.
Qed.

(** The loop of [notify] when every [update] returns and leaves the
    initial observers in place: it calls them all and ends in the state
    they left. *)
Lemma notify_loop_returning (update : Subject.behaviour H) ctx l0
    (Happ : Subject.only_appends update ctx l0)
    (Hret : Subject.returns update ctx l0) :
  forall (n j : nat) (s : Subject.subject H) tr,
    (j + n = length l0)%nat ->
    l0 `prefix_of` Subject.observers s ->
    Forall (Subject.delivered ctx) tr ->
    let r := Subject.notify_loop update ctx n (Z.of_nat j) s tr in
    Subject.ret r = Normal VUndefined /\
    Subject.observer <$> Subject.trace r = (Subject.observer <$> tr) ++ drop j l0 /\
    Forall (Subject.delivered ctx) (Subject.trace r) /\
    Subject.final r = Subject.after update ctx (drop j l0) s /\
    l0 `prefix_of` Subject.observers (Subject.final r).
Proof.
  induction n as [|n IH]; intros j s tr Hlen Hpre Htr; simpl.
  - rewrite drop_ge by lia. rewrite app_nil_r. repeat split; assumption.
  - rewrite get_of_nat.
    destruct (lookup_lt_is_Some_2 l0 j) as [o Ho]; [lia|].
    assert (Hs : Subject.observers s !! j = Some o).
    { rewrite <- Ho. symmetry. apply prefix_lookup_lt; [lia | exact Hpre]. }
    rewrite Hs.
    pose proof (Happ o s (list_elem_of_lookup_2 _ _ _ Ho) Hpre) as Hpre'.
    destruct (Hret o s (list_elem_of_lookup_2 _ _ _ Ho) Hpre) as (v & s' & Hu).
    rewrite Hu in Hpre' |- *. simpl in Hpre'.
    replace (Z.of_nat j + 1) with (Z.of_nat (S j)) by lia.
    destruct (IH (S j) s' (tr ++ [Subject.Event o ctx (Normal v)]))
      as (Hr & Htrace & Hdel & Hfin & Hpref); [lia | exact Hpre' | |].
    + apply Forall_app. split; [exact Htr|].
      constructor; [|constructor]. split; [reflexivity | exists v; reflexivity].
    + split; [exact Hr|]. split; [|split; [exact Hdel|split; [|exact Hpref]]].
      * rewrite Htrace, fmap_app, <- app_assoc. simpl.
        rewrite (drop_S _ _ _ Ho). reflexivity.
      * rewrite Hfin, (drop_S _ _ _ Ho). unfold Subject.after. simpl.
        rewrite Hu. reflexivity.
Qed.

Lemma notify_returning (update : Subject.behaviour H) ctx (s : Subject.subject H) :
  Subject.only_appends update ctx (Subject.observers s) ->
  Subject.returns update ctx (Subject.observers s) ->
  let r := Subject.notify update ctx s in
  Subject.ret r = Normal VUndefined /\
  Subject.observer <$> Subject.trace r = Subject.observers s /\
  Forall (Subject.delivered ctx) (Subject.trace r) /\
  Subject.final r = Subject.after update ctx (Subject.observers s) s /\
  Subject.observers s `prefix_of` Subject.observers (Subject.final r).
Proof.
  intros Happ Hret. unfold Subject.notify, ObserverList.count. rewrite Nat2Z.id.
  destruct (notify_loop_returning update ctx _ Happ Hret
              (length (Subject.observers s)) 0 s [])
    as (Hr & Htrace & Hdel & Hfin & Hpref); [lia | reflexivity | constructor |].
  change (Z.of_nat 0) with 0 in *. rewrite fmap_nil, app_nil_l, drop_0 in Htrace.
  rewrite drop_0 in Hfin.
  repeat split; assumption.
Qed.
End InFlightState.

(** C6 (as the code has it). [publish] and [notify] take no snapshot: they
    fix the number of calls when they start and read the live sequence,
    [publish] from the last index down and [notify] from index 0 up. When
    every callback returns and leaves the entries before its own in place
    (in [publish] it may add subscriptions, and cancel its own and those
    called before it; in [notify] it may append observers and removes none
    of the initial ones), the call returns, each entry the sequence had at
    the start is called once, [publish] from the last to the first and
    [notify] in order, and no added one is called. The call makes no change
    of its own: the state after it is the one the callbacks left, so a
    later [publish] or [notify] under the same condition calls the entries
    the sequence then has, with a subscription added in flight and without
    one cancelled in flight. *)
Theorem in_flight_changes {H : Type} :
  (forall (call : PubSub.behaviour H) topic args w l0,
     PubSub.own topic (PubSub.topics w) = Some l0 ->
     PubSub.keeps_earlier call topic args l0 ->
     let r := PubSub.publish call topic args w in
     PubSub.ret r = Normal VThis /\
     PubSub.target <$> PubSub.trace r = reverse l0 /\
     Forall (PubSub.delivered topic args) (PubSub.trace r) /\
     PubSub.final r = PubSub.after call topic args (reverse l0) w /\
     forall args' l1,
       PubSub.own topic (PubSub.topics (PubSub.final r)) = Some l1 ->
       PubSub.keeps_earlier call topic args' l1 ->
       let r' := PubSub.publish call topic args' (PubSub.final r) in
       PubSub.ret r' = Normal VThis /\
       PubSub.target <$> PubSub.trace r' = reverse l1) /\
  (forall (update : Subject.behaviour H) ctx s,
     Subject.only_appends update ctx (Subject.observers s) ->
     Subject.returns update ctx (Subject.observers s) ->
     let r := Subject.notify update ctx s in
     Subject.ret r = Normal VUndefined /\
     Subject.observer <$> Subject.trace r = Subject.observers s /\
     Forall (Subject.delivered ctx) (Subject.trace r) /\
     Subject.final r = Subject.after update ctx (Subject.observers s) s /\
     Subject.observers s `prefix_of` Subject.observers (Subject.final r) /\
     forall ctx',
       Subject.only_appends update ctx' (Subject.observers (Subject.final r)) ->
       Subject.returns update ctx' (Subject.observers (Subject.final r)) ->
       let r' := Subject.notify update ctx' (Subject.final r) in
       Subject.ret r' = Normal VUndefined /\
       Subject.observer <$> Subject.trace r' = Subject.observers (Subject.final r)).
Proof.
  split.
  - intros call topic args w l0 Hown Hcall r.
    destruct (publish_keeps_earlier call topic args w l0 Hown Hcall)
      as (Hret & Htargets & Hdel).
    split; [exact Hret|]. split; [exact Htargets|]. split; [exact Hdel|].
    split; [apply publish_after; assumption|].
    intros args' l1 Hown1 Hcall1 r'.
    destruct (publish_keeps_earlier call topic args' (PubSub.final r) l1 Hown1 Hcall1)
      as (Hret1 & Htargets1 & _).
    split; assumption.
  - intros update ctx s Happ Hreturns r.
    destruct (notify_returning update ctx s Happ Hreturns)
      as (Hret & Htrace & Hdel & Hfin & Hpref).
    split; [exact Hret|]. split; [exact Htrace|]. split; [exact Hdel|].
    split; [exact Hfin|]. split; [exact Hpref|].
    intros ctx' Happ1 Hreturns1 r'.
    destruct (notify_returning update ctx' (Subject.final r) Happ1 Hreturns1)
      as (Hret1 & Htrace1 & _).
    split; assumption.
Qed.

(** The callback that cancels its own subscription keeps the entries before
    it in place. *)
Lemma leaver_keeps_earlier args :
  PubSub.keeps_earlier Scenario.leaver "clicks" args
    [PubSub.Subscription "0" 1%nat; PubSub.Subscription "1" 2%nat].
Proof.
  intros k s w Hs Htake.
  destruct k as [|[|k]]; simpl in Hs; [| |discriminate]; injection Hs as <-.
  - exists VUndefined, w. split; reflexivity.
  - exists VUndefined. eexists. split; [reflexivity|].
    rewrite unsubscribe_take.
    + apply (take_le_eq 1 2); [lia | exact Htake].
    + rewrite (take_le_eq 1 2 _ _ ltac:(lia) Htake). simpl.
      constructor; [discriminate | constructor].
Qed.

(** Once it has left, the callback 1 is alone and does nothing. *)
Lemma leaver_alone_keeps_earlier args :
  PubSub.keeps_earlier Scenario.leaver "clicks" args [PubSub.Subscription "0" 1%nat].
Proof.
  intros k s w Hs Htake.
  destruct k as [|k]; simpl in Hs; [|discriminate]; injection Hs as <-.
  exists VUndefined, w. split; reflexivity.
Qed.

Lemma adder_returns ctx l0 : Subject.returns Scenario.adder ctx l0.
Proof. intros o s _ _. eexists _, _. reflexivity. Qed.

Lemma in_flight_changes_witness :
  let r := PubSub.publish Scenario.leaver "clicks" (VNum 1) Scenario.clicks_and_keys in
  let r' := PubSub.publish Scenario.leaver "clicks" (VNum 2) (PubSub.final r) in
  let n := Subject.notify Scenario.adder (VBool true) Scenario.two_observers in
  PubSub.target <$> PubSub.trace r
    = [PubSub.Subscription "1" 2%nat; PubSub.Subscription "0" 1%nat] /\
  PubSub.subscribers (PubSub.final r) "clicks" = [PubSub.Subscription "0" 1%nat] /\
  PubSub.target <$> PubSub.trace r' = [PubSub.Subscription "0" 1%nat] /\
  Subject.observer <$> Subject.trace n = [1; 2]%nat /\
  Subject.observers (Subject.final n) = [1; 2; 9; 9]%nat.
Proof.
  destruct (@in_flight_changes unit) as [Hp Hn].
  destruct (Hp Scenario.leaver "clicks" (VNum 1) Scenario.clicks_and_keys
              [PubSub.Subscription "0" 1%nat; PubSub.Subscription "1" 2%nat])
    as (_ & Htargets & _ & Hfinal & Hlater).
  { vm_compute. reflexivity. }
  { apply leaver_keeps_earlier. }
  destruct (Hn Scenario.adder (VBool true) Scenario.two_observers)
    as (_ & Htrace & _ & Hfin & _).
  { apply adder_only_appends. }
  { apply adder_returns. }
  cbv zeta. split; [exact Htargets|]. split; [|split; [|split]].
  - rewrite Hfinal. vm_compute. reflexivity.
  - refine (proj2 (Hlater (VNum 2) [PubSub.Subscription "0" 1%nat] _ _)).
    + rewrite Hfinal. vm_compute. reflexivity.
    + apply leaver_alone_keeps_earlier.
  - exact Htrace.
  - rewrite Hfin. vm_compute. reflexivity.
Defined.

(** C6 as the specification states it fails. In [publish], the callback
    subscribed second cancels the subscription made first, which was in
    the sequence when [publish] started: that subscription is not called,
    and the cancelling one is called twice. In [notify], the first observer
    removes itself: the second observer is not called and [notify] throws. *)
Lemma publish_is_not_a_snapshot :
  let r := PubSub.publish Scenario.remover "clicks" (VNum 1) Scenario.clicks_and_keys in
  let n := Subject.notify Scenario.quitter (VBool true) Scenario.two_observers in
  ~ (forall s, s ∈ PubSub.subscribers Scenario.clicks_and_keys "clicks" ->
               s ∈ PubSub.target <$> PubSub.trace r) /\
  PubSub.target <$> PubSub.trace r
    = [PubSub.Subscription "1" 2%nat; PubSub.Subscription "1" 2%nat] /\
  ~ (forall o, o ∈ Subject.observers Scenario.two_observers ->
               o ∈ Subject.observer <$> Subject.trace n) /\
  Subject.ret n = Abrupt TypeError.
Proof.
  split; [|split; [|split]].
  - intros Hall. specialize (Hall (PubSub.Subscription "0" 1%nat)).
    vm_compute in Hall.
    assert (Hin : PubSub.Subscription "0" 1%nat
                  ∈ [PubSub.Subscription "1" 2%nat; PubSub.Subscription "1" 2%nat])
      by (apply Hall; left).
    apply elem_of_cons in Hin as [Hin|Hin]; [discriminate|].
    apply list_elem_of_singleton in Hin. discriminate.
  - vm_compute. reflexivity.
  - intros Hall. specialize (Hall 2%nat). vm_compute in Hall.
    assert (Hin : 2%nat ∈ [1%nat]) by (apply Hall; right; left).
    apply list_elem_of_singleton in Hin. discriminate.
  - vm_compute. reflexivity.
Qed.

(** ** The scenario of the specification, on [pubsub] *)

(** Two callbacks subscribe to "clicks" and get the tokens "0" and "1"; a
    [publish] calls the second, then the first, and returns [this]; after
    [unsubscribe("1")], which returns "1", a [publish] calls the first
    alone. *)
Example clicks_scenario :
  let w0 := PubSub.init tt in
  let '(t1, w1) := PubSub.subscribe "clicks" 1%nat w0 in
  let '(t2, w2) := PubSub.subscribe "clicks" 2%nat w1 in
  let p1 := PubSub.publish Scenario.quiet "clicks" (VNum 1) w2 in
  let '(u, w3) := PubSub.unsubscribe (VStr "1") (PubSub.final p1) in
  let p2 := PubSub.publish Scenario.quiet "clicks" (VNum 2) w3 in
  t1 = Normal (VStr "0") /\ t2 = Normal (VStr "1") /\
  PubSub.func <$> (PubSub.target <$> PubSub.trace p1) = [2; 1]%nat /\
  PubSub.ret p1 = Normal VThis /\
  u = Normal (VStr "1") /\
  PubSub.func <$> (PubSub.target <$> PubSub.trace p2) = [1]%nat /\
  PubSub.ret p2 = Normal VThis.
Proof. vm_compute. repeat split. Qed.


(** * Further properties of the code *)

(** ** ObserverList *)

Section ObserverListFacts.
Implicit Types (l : ObserverList.observerList) (o obj : objref).

Lemma get_nonneg index l :
  0 <= index -> ObserverList.get index l = l !! Z.to_nat index.
Proof.
  intros Hpos. rewrite <- (Z2Nat.id index) at 1 by exact Hpos. apply get_of_nat.
Qed.

Lemma get_negative index l : index < 0 -> ObserverList.get index l = None.
Proof.
  intros Hneg. unfold ObserverList.get.
  destruct (Z.ltb_spec (-1) index) as [Hlt|_]; [lia | reflexivity].
Qed.


(** X2. [get] is a bounds-checked read: it yields an observer exactly for
    the indices from 0 to [count() - 1], and [undefined] for every other
    index. *)
Theorem get_in_bounds index l :
  is_Some (ObserverList.get index l) <-> 0 <= index < ObserverList.count l.
Proof.
  unfold ObserverList.count. split.
  - intros Hsome. destruct (Z.lt_ge_cases index 0) as [Hneg|Hpos].
    + rewrite get_negative in Hsome by exact Hneg. destruct Hsome; discriminate.
    + rewrite get_nonneg in Hsome by exact Hpos.
      apply lookup_lt_is_Some in Hsome. lia.
  - intros [Hpos Hlt]. rewrite get_nonneg by exact Hpos.
    apply lookup_lt_is_Some. lia.
Qed.

Lemma indexOf_from_spec obj l (i : Z) :
  (ObserverList.indexOf_from obj l i = -1 /\ obj ∉ l) \/
  (exists k : nat,
     ObserverList.indexOf_from obj l i = i + Z.of_nat k /\
     l !! k = Some obj /\ forall j : nat, (j < k)%nat -> l !! j <> Some obj).
Proof.
  destruct (decide (obj ∈ l)) as [Hin|Hnot].
  - right. destruct (indexOf_from_present obj l i Hin) as (k & Hk & Hat & Hbefore).
    exists k. split; [exact Hk|]. split; [exact Hat|].
    intros j Hj Hl. apply Hbefore.
    apply list_elem_of_lookup. exists j. rewrite lookup_take_lt by exact Hj. exact Hl.
  - left. split; [apply indexOf_from_absent, Hnot | exact Hnot].
Qed.

(** X3. [indexOf(obj, startIndex)] returns -1 exactly when [obj] does not
    occur from [startIndex] on; otherwise it returns the first index at or
    after [startIndex] (after 0 when that is negative) that holds [obj]. *)
Theorem indexOf_first_occurrence obj startIndex l :
  let start := Z.to_nat startIndex in
  (ObserverList.indexOf obj startIndex l = -1 /\ obj ∉ drop start l) \/
  (exists k : nat,
     ObserverList.indexOf obj startIndex l = Z.of_nat k /\
     (start <= k)%nat /\
     ObserverList.get (Z.of_nat k) l = Some obj /\
     forall j : nat, (start <= j < k)%nat -> ObserverList.get (Z.of_nat j) l <> Some obj).
Proof.
  intros start. unfold ObserverList.indexOf.
  replace (Z.to_nat (Z.max startIndex 0)) with start by (subst start; lia).
  destruct (indexOf_from_spec obj (drop start l) (Z.max startIndex 0))
    as [[Hm Hnot]|(k & Hk & Hat & Hbefore)].
  - left. split; assumption.
  - right. exists (start + k)%nat. unfold ObserverList.observerList in *.
    rewrite lookup_drop in Hat.
    split; [rewrite Hk; subst start; lia|]. split; [lia|].
    split; [rewrite get_of_nat; exact Hat|].
    intros j [Hsj Hjk]. rewrite get_of_nat.
    specialize (Hbefore (j - start)%nat). rewrite lookup_drop in Hbefore.
    replace (start + (j - start))%nat with j in Hbefore by lia.
    apply Hbefore. lia.
Qed.

(** X4. [removeAt(index)] with an index of the list removes that element:
    the count goes down by one, the indices before it read as before and
    the later ones read what was one position further. *)
Theorem removeAt_in_range (k : nat) l :
  (k < length l)%nat ->
  let l' := ObserverList.removeAt (Z.of_nat k) l in
  l' = delete k l /\
  ObserverList.count l' = ObserverList.count l - 1 /\
  (forall j : nat, (j < k)%nat ->
     ObserverList.get (Z.of_nat j) l' = ObserverList.get (Z.of_nat j) l) /\
  (forall j : nat, (k <= j)%nat ->
     ObserverList.get (Z.of_nat j) l' = ObserverList.get (Z.of_nat (S j)) l).
Proof.
  intros Hk l'. subst l'. unfold ObserverList.removeAt, ObserverList.count.
  rewrite splice_of_nat, Nat.add_1_r, <- delete_take_drop.
  split; [reflexivity|]. split; [|split].
  - rewrite length_delete by (apply lookup_lt_is_Some; exact Hk). lia.
  - intros j Hj. rewrite !get_of_nat. apply list_lookup_delete_lt. exact Hj.
  - intros j Hj. rewrite !get_of_nat. apply list_lookup_delete_ge. exact Hj.
Qed.

Lemma removeAt_in_range_witness :
  ObserverList.removeAt 0 [4; 5; 6]%nat = [5; 6]%nat /\
  ObserverList.get 0 (ObserverList.removeAt 0 [4; 5; 6]%nat) = Some 5%nat.
Proof.
  destruct (removeAt_in_range 0 [4; 5; 6]%nat) as (Heq & _ & _ & Hlater).
  - simpl. lia.
  - split; [exact Heq|]. exact (Hlater 0%nat (Nat.le_refl 0)).
Defined.

(** X5. [removeAt] is not bounds-checked, and the two sides differ: an index
    at or beyond the count removes nothing, while every negative index
    removes an element of a list that has one, counting from the end and
    stopping at the first element. *)
Theorem removeAt_out_of_range index l :
  (ObserverList.count l <= index -> ObserverList.removeAt index l = l) /\
  (index < 0 ->
   ObserverList.removeAt index l
   = delete (Z.to_nat (ObserverList.count l + index)) l /\
   (l <> [] -> ObserverList.count (ObserverList.removeAt index l)
               = ObserverList.count l - 1)).
Proof.
  unfold ObserverList.removeAt, ObserverList.count, splice. split.
  - intros Hge. destruct (Z.ltb_spec index 0) as [Hneg|_]; [lia|].
    rewrite Z.min_r by exact Hge. rewrite Nat2Z.id.
    rewrite take_ge, drop_ge by lia. apply app_nil_r.
  - intros Hneg. destruct (Z.ltb_spec index 0) as [_|Hpos]; [|lia].
    replace (Z.to_nat (Z.max (Z.of_nat (length l) + index) 0))
      with (Z.to_nat (Z.of_nat (length l) + index)) by lia.
    rewrite Nat.add_1_r, <- delete_take_drop. split; [reflexivity|].
    intros Hne. rewrite length_delete.
    + destruct l; [contradiction | simpl; lia].
    + apply lookup_lt_is_Some. destruct l; [contradiction | simpl; lia].
Qed.

Lemma removeAt_out_of_range_witness :
  ObserverList.removeAt 7 [4; 5; 6]%nat = [4; 5; 6]%nat /\
  ObserverList.removeAt (-7) [4; 5; 6]%nat = [5; 6]%nat.
Proof.
  destruct (removeAt_out_of_range 7 [4; 5; 6]%nat) as [Hbeyond _].
  destruct (removeAt_out_of_range (-7) [4; 5; 6]%nat) as [_ Hneg].
  split.
  - apply Hbeyond. vm_compute. discriminate.
  - destruct Hneg as [Heq _]; [reflexivity | exact Heq].
Defined.
End ObserverListFacts.

(** ** Subject *)

Section SubjectFacts.
Context {H : Type}.
Implicit Types (s : Subject.subject H) (o : objref).

(** X6. [removeObserver] of a registered observer removes its first
    registration and nothing else: the count goes down by one, and an
    observer that was added twice is still registered once. *)
Theorem removeObserver_first_occurrence o s :
  o ∈ Subject.observers s ->
  exists k : nat,
    Subject.observers s !! k = Some o /\
    (forall j : nat, (j < k)%nat -> Subject.observers s !! j <> Some o) /\
    Subject.observers (Subject.removeObserver o s) = delete k (Subject.observers s) /\
    ObserverList.count (Subject.observers (Subject.removeObserver o s))
      = ObserverList.count (Subject.observers s) - 1 /\
    Subject.user (Subject.removeObserver o s) = Subject.user s.
Proof.
  intros Hin. destruct (removeObserver_present o s Hin) as (k & Hat & Hbefore & Heq).
  exists k. split; [exact Hat|]. split; [|split; [exact Heq|split; [|reflexivity]]].
  - intros j Hj Hl. apply Hbefore. apply list_elem_of_lookup. exists j.
    rewrite lookup_take_lt by exact Hj. exact Hl.
  - rewrite Heq. unfold ObserverList.count.
    pose proof (length_delete (Subject.observers s) k (ex_intro _ o Hat)) as Hlen.
    apply lookup_lt_Some in Hat.
    unfold ObserverList.observerList in *. lia.
Qed.



(** The same holds of the loop of [notify] as of the loop of [publish]: the
    call that throws is the last one. *)
Lemma notify_loop_abrupt (update : Subject.behaviour H) ctx (n : nat) :
  forall i s tr,
    Forall (fun ev => exists v, Subject.outcome ev = Normal v) tr ->
    let r := Subject.notify_loop update ctx n i s tr in
    forall (k : nat) ev e,
      Subject.trace r !! k = Some ev -> Subject.outcome ev = Abrupt e ->
      Subject.ret r = Abrupt e /\ length (Subject.trace r) = S k.
Proof.
  induction n as [|n IH]; intros i s tr Htr; simpl.
  - intros k ev e Hk He. rewrite Forall_forall in Htr.
    destruct (Htr ev (list_elem_of_lookup_2 _ _ _ Hk)) as [v Hv]. congruence.
  - destruct (ObserverList.get i (Subject.observers s)) as [o|]; simpl.
    + destruct (update o ctx s) as [[v|e'] s'].
      * apply IH. apply Forall_app. split; [exact Htr|].
        constructor; [exists v; reflexivity | constructor].
      * simpl. intros k ev e Hk He.
        destruct (decide (k < length tr)%nat) as [Hlt|Hge].
        -- rewrite lookup_app_l in Hk by exact Hlt. rewrite Forall_forall in Htr.
           destruct (Htr ev (list_elem_of_lookup_2 _ _ _ Hk)) as [v Hv]. congruence.
        -- rewrite lookup_app_r in Hk by lia.
           destruct (k - length tr)%nat as [|j] eqn:Ej; [|discriminate].
           injection Hk as <-. simpl in He. injection He as <-.
           rewrite length_app. simpl. split; [reflexivity | lia].
    + intros k ev e Hk He. rewrite Forall_forall in Htr.
      destruct (Htr ev (list_elem_of_lookup_2 _ _ _ Hk)) as [v Hv]. congruence.
Qed.

(** X8. When the [update] of an observer throws, [notify] ends with that
    exception and the observers after it are not notified: the call that
    threw is the last one [notify] made. *)
Theorem notify_update_throws (update : Subject.behaviour H) ctx s (k : nat) ev e :
  let r := Subject.notify update ctx s in
  Subject.trace r !! k = Some ev -> Subject.outcome ev = Abrupt e ->
  Subject.ret r = Abrupt e /\ length (Subject.trace r) = S k.
Proof. intros r. subst r. unfold Subject.notify. apply notify_loop_abrupt. constructor. Qed.
End SubjectFacts.

Lemma removeObserver_first_occurrence_witness :
  Subject.observers
    (Subject.removeObserver 7%nat
       {| Subject.observers := [4; 7; 5; 7]%nat; Subject.user := tt |})
  = [4; 5; 7]%nat.
Proof.
  destruct (removeObserver_first_occurrence 7%nat
    {| Subject.observers := [4; 7; 5; 7]%nat; Subject.user := tt |})
    as (k & _ & _ & _ & _ & _).
  - right. left.
  - reflexivity.
Defined.


Lemma notify_update_throws_witness :
  Subject.ret (Subject.notify Samples.faulty (VBool true) Scenario.two_observers)
  = Abrupt (Thrown (VStr "boom")) /\
  length (Subject.trace
            (Subject.notify Samples.faulty (VBool true) Scenario.two_observers)) = 1%nat.
Proof.
  apply (notify_update_throws Samples.faulty (VBool true) Scenario.two_observers 0%nat
           (Subject.Event 1%nat (VBool true) (Abrupt (Thrown (VStr "boom"))))
           (Thrown (VStr "boom"))).
  - vm_compute. reflexivity.
  - reflexivity.
Defined.

(** ** The checkbox page *)

Section PageFacts.
Implicit Types (s : Subject.subject Page.page) (o : objref).

(** The loop of [notify] over checkboxes: the list stays as it is, and the
    checkboxes from index [j] on take the value. *)
Lemma notify_loop_checkboxes (v : value) (n : nat) : forall (j : nat) s tr,
  (j + n = length (Subject.observers s))%nat ->
  let r := Subject.notify_loop Page.update v n (Z.of_nat j) s tr in
  Subject.ret r = Normal VUndefined /\
  Subject.observers (Subject.final r) = Subject.observers s /\
  Page.created (Subject.user (Subject.final r)) = Page.created (Subject.user s) /\
  Page.children (Subject.user (Subject.final r)) = Page.children (Subject.user s) /\
  (forall o, o ∈ drop j (Subject.observers s) ->
     Page.checked (Subject.user (Subject.final r)) o = v) /\
  (forall o, o ∉ drop j (Subject.observers s) ->
     Page.checked (Subject.user (Subject.final r)) o = Page.checked (Subject.user s) o) /\
  Subject.observer <$> Subject.trace r
    = (Subject.observer <$> tr) ++ drop j (Subject.observers s).
Proof.
  induction n as [|n IH]; intros j s tr Hlen; simpl.
  - rewrite drop_ge by lia. rewrite app_nil_r.
    repeat split; try reflexivity. intros o Hin. inversion Hin.
  - rewrite get_of_nat.
    destruct (lookup_lt_is_Some_2 (Subject.observers s) j) as [o Ho]; [lia|].
    assert (Hs : Subject.observers s !! j = Some o) by exact Ho.
    rewrite Hs. simpl.
    replace (Z.of_nat j + 1) with (Z.of_nat (S j)) by lia.
    set (s' := {| Subject.observers := Subject.observers s;
                  Subject.user := Page.set_checked o v (Subject.user s) |}).
    destruct (IH (S j) s' (tr ++ [Subject.Event o v (Normal VUndefined)]))
      as (Hret & Hobs & Hcr & Hch & Hin & Hout & Htr); [simpl; lia|].
    simpl in Hobs, Hcr, Hch, Hin, Hout, Htr.
    rewrite (drop_S _ _ _ Ho).
    split; [exact Hret|]. split; [exact Hobs|]. split; [exact Hcr|].
    split; [exact Hch|]. split; [|split].
    + intros o' Ho'. destruct (decide (o' ∈ drop (S j) (Subject.observers s))) as [Hd|Hd].
      * apply Hin, Hd.
      * rewrite (Hout o' Hd). apply elem_of_cons in Ho' as [->|Ho']; [|contradiction].
        destruct (decide (o = o)); [reflexivity | contradiction].
    + intros o' Ho'. apply not_elem_of_cons in Ho' as [Hne Hd].
      rewrite (Hout o' Hd). destruct (decide (o' = o)); [contradiction | reflexivity].
    + rewrite Htr, fmap_app, <- app_assoc. reflexivity.
Qed.

Lemma onclick_effect (b : bool) s :
  let r := Page.onclick b s in
  Subject.ret r = Normal VUndefined /\
  Subject.observers (Subject.final r) = Subject.observers s /\
  Page.created (Subject.user (Subject.final r)) = Page.created (Subject.user s) /\
  Page.children (Subject.user (Subject.final r)) = Page.children (Subject.user s) /\
  (forall o, o ∈ Subject.observers s ->
     Page.checked (Subject.user (Subject.final r)) o = VBool b) /\
  (forall o, o ∉ Subject.observers s ->
     Page.checked (Subject.user (Subject.final r)) o = Page.checked (Subject.user s) o) /\
  Subject.observer <$> Subject.trace r = Subject.observers s.
Proof.
  unfold Page.onclick, Subject.notify, ObserverList.count. rewrite Nat2Z.id.
  apply (notify_loop_checkboxes (VBool b) (length (Subject.observers s)) 0 s []).
  reflexivity.
Qed.

(** X9. A click on the control checkbox brings every observing checkbox to
    the state of the control, each by one call of its [update], in the
    order in which they were added; nothing throws, and no other element
    and no list changes. *)
Theorem onclick_checks_all (b : bool) s :
  let r := Page.onclick b s in
  Subject.ret r = Normal VUndefined /\
  Subject.observer <$> Subject.trace r = Subject.observers s /\
  (forall o, o ∈ Subject.observers s ->
     Page.checked (Subject.user (Subject.final r)) o = VBool b) /\
  (forall o, o ∉ Subject.observers s ->
     Page.checked (Subject.user (Subject.final r)) o = Page.checked (Subject.user s) o) /\
  Subject.observers (Subject.final r) = Subject.observers s /\
  Page.children (Subject.user (Subject.final r)) = Page.children (Subject.user s).
Proof.
  destruct (onclick_effect b s) as (Hret & Hobs & _ & Hch & Hin & Hout & Htr).
  repeat split; assumption.
Qed.

End PageFacts.


(** ** Subscribing to [pubsub] *)

Section SubscribeFacts.
Context {H : Type}.
Implicit Types (w : PubSub.world H) (ts : PubSub.registry)
  (l : list PubSub.subscription) (tok : value).




End SubscribeFacts.





(** X13. The registry invariant holds in every state that [subscribe] and
    [unsubscribe] calls lead to from the new broker with at most 2^53 + 1
    calls of [subscribe]: no two subscriptions of the registry, in whatever
    topics, carry the same token, so any token matches one subscription at
    most. *)
Theorem reachable_tokens_distinct {H : Type} (rs : list PubSub.request) (h : H) :
  PubSub.subscribe_calls rs <= max_safe + 1 ->
  let w := (PubSub.run rs (PubSub.init h)).2 in
  NoDup (PubSub.token <$> PubSub.subscriptions w) /\
  forall tok, (length (filter (PubSub.matches tok) (PubSub.subscriptions w)) <= 1)%nat.
Proof.
  intros Hb w.
  assert (Hinv : PubSub.tokens_distinct w).
  { apply run_tokens_distinct; [simpl; lia | apply init_tokens_distinct]. }
  split; [apply Hinv|]. intros tok. apply tokens_distinct_at_most_one, Hinv.
Qed.

Lemma reachable_tokens_distinct_witness :
  NoDup (PubSub.token <$> PubSub.subscriptions
           (PubSub.run [PubSub.Subscribe "clicks" 1%nat;
                        PubSub.Subscribe "keys" 2%nat;
                        PubSub.Unsubscribe (VStr "0");
                        PubSub.Subscribe "clicks" 3%nat] (PubSub.init tt)).2).
Proof.
  apply (reachable_tokens_distinct
           [PubSub.Subscribe "clicks" 1%nat; PubSub.Subscribe "keys" 2%nat;
            PubSub.Unsubscribe (VStr "0"); PubSub.Subscribe "clicks" 3%nat] tt).
  vm_compute. discriminate.
Defined.

(** ** How the operations of [pubsub] compose *)

Section Composition.
Context {H : Type}.
Implicit Types (w : PubSub.world H) (ts : PubSub.registry)
  (l : list PubSub.subscription) (tok : value).





(** A token that prints a counter value already passed and matches nothing
    stays without match, whatever is subscribed and cancelled later. *)
Lemma stale_token_run (n : Z) rs : forall w,
  PubSub.subUid w + PubSub.subscribe_calls rs <= max_safe ->
  n <= PubSub.subUid w ->
  Forall (fun s => ~ PubSub.matches (VStr (toString n)) s) (PubSub.subscriptions w) ->
  Forall (fun s => ~ PubSub.matches (VStr (toString n)) s)
    (PubSub.subscriptions (PubSub.run rs w).2).
Proof.
  induction rs as [|r rs IH]; intros w Hb Hle Hnone; cbn [PubSub.run];
    [exact Hnone|].
  pose proof (subscribe_calls_nonneg rs) as Hnn.
  destruct (PubSub.serve r w) as [c w1] eqn:E.
  specialize (IH w1). destruct (PubSub.run rs w1) as [log w2]. cbn [snd] in *.
  assert (Hw1 : w1 = (PubSub.serve r w).2) by (rewrite E; reflexivity).
  destruct r as [topic f|tok]; simpl in Hw1; cbn [PubSub.subscribe_calls] in Hb.
  - apply IH.
    + rewrite Hw1, subscribe_subUid, increment_below by lia. lia.
    + rewrite Hw1, subscribe_subUid, increment_below by lia. lia.
    + rewrite Hw1.
      destruct (subscribe_subscriptions topic f w) as [Hp|Hp]; rewrite Hp;
        [exact Hnone|].
      constructor; [|exact Hnone].
      unfold PubSub.matches. simpl. intros Hm. injection Hm as Hm.
      apply toString_inj in Hm. rewrite increment_below in Hm by lia. lia.
  - apply IH.
    + rewrite Hw1, unsubscribe_subUid. exact Hb.
    + rewrite Hw1, unsubscribe_subUid. exact Hle.
    + rewrite Hw1. unfold PubSub.unsubscribe.
      destruct (PubSub.scan tok (PubSub.topics w)) as [ts'|] eqn:Es; [|exact Hnone].
      unfold PubSub.subscriptions in *. simpl.
      apply Forall_forall. intros x Hx. rewrite Forall_forall in Hnone.
      apply Hnone. eapply elem_of_sublist; [exact Hx | exact (scan_sublist _ _ _ Es)].
Qed.

(** With inert callbacks the loop of [publish] leaves the registry and the
    counter as they are. *)
Lemma publish_loop_frame (call : PubSub.behaviour H) topic args w0 (len : nat) :
  Forall (fun s => PubSub.inert call (PubSub.func s)) (PubSub.subscribers w0 topic) ->
  forall w tr,
    PubSub.topics w = PubSub.topics w0 -> PubSub.subUid w = PubSub.subUid w0 ->
    let r := PubSub.publish_loop call topic args len w tr in
    PubSub.topics (PubSub.final r) = PubSub.topics w0 /\
    PubSub.subUid (PubSub.final r) = PubSub.subUid w0.
Proof.
  intros Hinert. induction len as [|len IH]; intros w tr Ht Hu; simpl.
  - split; assumption.
  - assert (Hsubs : PubSub.subscribers w topic = PubSub.subscribers w0 topic)
      by (unfold PubSub.subscribers; rewrite Ht; reflexivity).
    rewrite Hsubs.
    destruct (PubSub.subscribers w0 topic !! len) as [s|] eqn:Es; simpl;
      [|split; assumption].
    rewrite Forall_forall in Hinert.
    destruct (Hinert s (list_elem_of_lookup_2 _ _ _ Es) [VStr topic; args] w)
      as (v & h & ->).
    apply IH; simpl; assumption.
Qed.
End Composition.


Lemma clicks_and_keys_tokens_distinct : PubSub.tokens_distinct Scenario.clicks_and_keys.
Proof.
  apply run_tokens_distinct; [vm_compute; discriminate | apply init_tokens_distinct].
Qed.


(** X15. A cancelled token is dead: once [unsubscribe] has removed the one
    subscription a token matched, every later [unsubscribe] with that
    token, after further [subscribe] and [unsubscribe] calls that keep the
    counter within 2^53, removes nothing and returns [this]. Up to that
    bound tokens are not handed out twice. *)
Theorem cancelled_token_stays_dead {H : Type} tok (w : PubSub.world H)
    (rs : list PubSub.request) :
  -1 <= PubSub.subUid w ->
  PubSub.subUid w + PubSub.subscribe_calls rs <= max_safe ->
  PubSub.tokens_distinct w ->
  length (filter (PubSub.matches tok) (PubSub.subscriptions w)) = 1%nat ->
  let w' := (PubSub.run rs (PubSub.unsubscribe tok w).2).2 in
  PubSub.unsubscribe tok w' = (Normal VThis, w').
Proof.
  intros Hlo Hb Hinv Hone w'.
  assert (Hn : exists n, tok = VStr (toString n) /\ n <= PubSub.subUid w).
  { destruct (filter (PubSub.matches tok) (PubSub.subscriptions w)) as [|s l] eqn:Ef;
      [discriminate|].
    assert (Hin : s ∈ filter (PubSub.matches tok) (PubSub.subscriptions w))
      by (rewrite Ef; left).
    apply list_elem_of_filter in Hin as [Hm Hin].
    destruct Hinv as [_ Hall]. rewrite Forall_forall in Hall.
    destruct (Hall s Hin) as (n & Hn & Hle).
    exists n. split; [|exact Hle]. unfold PubSub.matches in Hm. rewrite <- Hm, Hn.
    reflexivity. }
  destruct Hn as (n & -> & Hle).
  assert (Hnone : Forall (fun s => ~ PubSub.matches (VStr (toString n)) s)
                    (PubSub.subscriptions w')).
  { subst w'. apply stale_token_run.
    - rewrite unsubscribe_subUid. exact Hb.
    - rewrite unsubscribe_subUid. exact Hle.
    - unfold PubSub.unsubscribe.
      rewrite (scan_unique _ (PubSub.topics w) Hone).
      unfold PubSub.subscriptions. simpl. rewrite subscriptions_without.
      apply Forall_forall. intros x Hx.
      apply list_elem_of_filter in Hx as [Hx _]. exact Hx. }
  unfold PubSub.unsubscribe.
  destruct (without_none_matches _ (PubSub.topics w') Hnone) as [_ ->]. reflexivity.
Qed.

Lemma cancelled_token_stays_dead_witness :
  let w' := (PubSub.run [PubSub.Subscribe "clicks" 7%nat]
               (PubSub.unsubscribe (VStr "1") Scenario.clicks_and_keys).2).2 in
  PubSub.unsubscribe (VStr "1") w' = (Normal VThis, w').
Proof.
  apply (cancelled_token_stays_dead (VStr "1") Scenario.clicks_and_keys
           [PubSub.Subscribe "clicks" 7%nat]).
  - vm_compute. discriminate.
  - vm_compute. discriminate.
  - apply clicks_and_keys_tokens_distinct.
  - vm_compute. reflexivity.
Defined.

Section PublishComposition.
Context {H : Type}.
Implicit Types (w : PubSub.world H) (l : list PubSub.subscription) (tok : value).

Lemma own_filter_length tok (ts : PubSub.registry) t l :
  PubSub.own t ts = Some l ->
  (length (filter (PubSub.matches tok) l)
   <= length (filter (PubSub.matches tok) (concat (map snd ts))))%nat.
Proof.
  induction ts as [|[m l'] ts IH]; simpl; [discriminate|].
  rewrite filter_app, length_app.
  destruct (decide (m = t)) as [_|_].
  - intros [= ->]. lia.
  - intros Hown. specialize (IH Hown). lia.
Qed.

Lemma Forall_filter_inert (call : PubSub.behaviour H) (P : PubSub.subscription -> Prop)
    `{!forall s, Decision (P s)} l :
  Forall (fun s => PubSub.inert call (PubSub.func s)) l ->
  Forall (fun s => PubSub.inert call (PubSub.func s)) (filter P l).
Proof.
  intros Hall. apply Forall_forall. intros x Hx.
  apply list_elem_of_filter in Hx as [_ Hx].
  rewrite Forall_forall in Hall. exact (Hall x Hx).
Qed.
End PublishComposition.

(** X16. After [unsubscribe] has removed the one subscription its token
    matched, a [publish] on any topic (with callbacks that return and leave
    the broker alone) calls the topic's other subscribers, last subscribed
    first, and not the removed one; when the removed one was a subscriber
    of that topic, [publish] makes exactly one call less than the topic had
    subscribers. *)
Theorem unsubscribe_then_publish {H : Type} (call : PubSub.behaviour H)
    tok topic args (w : PubSub.world H) l :
  length (filter (PubSub.matches tok) (PubSub.subscriptions w)) = 1%nat ->
  PubSub.own topic (PubSub.topics w) = Some l ->
  Forall (fun s => PubSub.inert call (PubSub.func s)) l ->
  let r := PubSub.publish call topic args (PubSub.unsubscribe tok w).2 in
  PubSub.ret r = Normal VThis /\
  PubSub.target <$> PubSub.trace r
    = reverse (filter (fun s => ~ PubSub.matches tok s) l) /\
  Forall (fun e => ~ PubSub.matches tok (PubSub.target e)) (PubSub.trace r) /\
  ((exists s, s ∈ l /\ PubSub.matches tok s) ->
   S (length (PubSub.trace r)) = length l).
Proof.
  intros Hone Hown Hinert r. subst r.
  assert (Hw' : PubSub.own topic (PubSub.topics (PubSub.unsubscribe tok w).2)
                = Some (filter (fun s => ~ PubSub.matches tok s) l)).
  { unfold PubSub.unsubscribe. rewrite (scan_unique tok _ Hone). simpl.
    rewrite own_without, Hown. reflexivity. }
  destruct (publish_keeps_earlier call topic args _ _ Hw')
    as (Hret & Htargets & _).
  { apply inert_keeps_earlier, Forall_filter_inert, Hinert. }
  split; [exact Hret|]. split; [exact Htargets|]. split.
  - apply Forall_forall. intros e He.
    assert (Hin : PubSub.target e
                  ∈ reverse (filter (fun s => ~ PubSub.matches tok s) l)).
    { rewrite <- Htargets. apply list_elem_of_fmap. exists e. split; [reflexivity | exact He]. }
    rewrite elem_of_reverse in Hin. apply list_elem_of_filter in Hin as [Hn _]. exact Hn.
  - intros (s & Hs & Hm).
    rewrite <- (length_fmap PubSub.target), Htargets, length_reverse.
    pose proof (length_filter_split tok l) as Hsplit.
    pose proof (own_filter_length tok _ topic l Hown) as Hle.
    unfold PubSub.subscriptions in Hone.
    assert (Hpos : (0 < length (filter (PubSub.matches tok) l))%nat).
    { assert (Hin : s ∈ filter (PubSub.matches tok) l)
        by (apply list_elem_of_filter; split; assumption).
      destruct (filter (PubSub.matches tok) l); [inversion Hin | simpl; lia]. }
    lia.
Qed.

Lemma unsubscribe_then_publish_witness :
  PubSub.target <$> PubSub.trace
    (PubSub.publish Scenario.quiet "clicks" (VNum 2)
       (PubSub.unsubscribe (VStr "1") Scenario.clicks_and_keys).2)
  = [PubSub.Subscription "0" 1%nat].
Proof.
  destruct (unsubscribe_then_publish Scenario.quiet (VStr "1") "clicks" (VNum 2)
              Scenario.clicks_and_keys
              [PubSub.Subscription "0" 1%nat; PubSub.Subscription "1" 2%nat])
    as (_ & Htargets & _).
  - vm_compute. reflexivity.
  - vm_compute. reflexivity.
  - repeat constructor; apply quiet_inert.
  - rewrite Htargets. vm_compute. reflexivity.
Defined.

(** X17. [publish] itself changes nothing: when the topic's callbacks
    return and leave the broker alone, the registry and the counter are
    after [publish] what they were before it. *)
Theorem publish_changes_nothing {H : Type} (call : PubSub.behaviour H)
    topic args (w : PubSub.world H) :
  Forall (fun s => PubSub.inert call (PubSub.func s)) (PubSub.subscribers w topic) ->
  let r := PubSub.publish call topic args w in
  PubSub.topics (PubSub.final r) = PubSub.topics w /\
  PubSub.subUid (PubSub.final r) = PubSub.subUid w.
Proof.
  intros Hinert r. subst r. unfold PubSub.publish.
  destruct (PubSub.get (PubSub.topics w) topic) as [l|[[|n]|]|];
    try (split; reflexivity).
  apply (publish_loop_frame call topic args w (length l) Hinert w []); reflexivity.
Qed.

Lemma publish_changes_nothing_witness :
  PubSub.topics (PubSub.final
    (PubSub.publish Scenario.quiet "clicks" (VNum 1) Scenario.clicks_and_keys))
  = PubSub.topics Scenario.clicks_and_keys.
Proof.
  apply (publish_changes_nothing Scenario.quiet "clicks" (VNum 1) Scenario.clicks_and_keys).
  change (PubSub.subscribers Scenario.clicks_and_keys "clicks")
    with [PubSub.Subscription "0" 1%nat; PubSub.Subscription "1" 2%nat].
  repeat constructor; apply quiet_inert.
Defined.



(** X19. Tokens are strings and are compared with [===]: [unsubscribe]
    with a value that is no string (the number 0 for the token "0", say)
    removes nothing from any registry and returns [this]. *)
Theorem unsubscribe_non_string {H : Type} (v : value) (w : PubSub.world H) :
  (forall t : string, v <> VStr t) ->
  PubSub.unsubscribe v w = (Normal VThis, w).
Proof.
  intros Hv. unfold PubSub.unsubscribe.
  assert (Hnone : Forall (fun s => ~ PubSub.matches v s) (PubSub.subscriptions w)).
  { apply Forall_forall. intros s _ Hm. exact (Hv (PubSub.token s) (eq_sym Hm)). }
  destruct (without_none_matches v (PubSub.topics w) Hnone) as [_ ->]. reflexivity.
Qed.

Lemma unsubscribe_non_string_witness :
  PubSub.unsubscribe (VNum 0) Scenario.clicks_and_keys
  = (Normal VThis, Scenario.clicks_and_keys).
Proof.
  apply (unsubscribe_non_string (VNum 0) Scenario.clicks_and_keys).
  intros t. discriminate.
Defined.

(** ** The container of part_002 *)

Section ContainerFacts.
Context {H : Type}.
Implicit Types (w : Container.world H) (ts : list (string * list Container.subscriber))
  (l : list Container.subscriber).

Lemma container_own_update topic f ts t :
  Container.own t (Container.update topic f ts)
  = if decide (t = topic) then f <$> Container.own topic ts else Container.own t ts.
Proof.
  induction ts as [|[m l] ts IH]; simpl.
  - destruct (decide (t = topic)); reflexivity.
  - destruct (decide (m = topic)) as [->|Hm]; simpl.
    + destruct (decide (topic = t)) as [<-|Hne].
      * rewrite decide_True by reflexivity. reflexivity.
      * rewrite decide_False by congruence. reflexivity.
    + destruct (decide (m = t)) as [->|Hmt].
      * rewrite decide_False by congruence. reflexivity.
      * exact IH.
Qed.


Lemma container_get_array ts topic l :
  Container.get ts topic = Container.SArray l ->
  Container.is_method topic = false /\ Container.own topic ts = Some l.
Proof.
  unfold Container.get. destruct (Container.is_method topic); [discriminate|].
  destruct (Container.own topic ts) as [l'|].
  - intros [= ->]. split; reflexivity.
  - destruct (objectPrototype topic); discriminate.
Qed.

Lemma container_filter (i : value) l :
  List.filter (fun s => bool_decide (VNum (Container.id s) <> i)) l
  = filter (fun s => VNum (Container.id s) <> i) l.
Proof.
  induction l as [|s l IH]; [reflexivity|]. simpl.
  destruct (decide (VNum (Container.id s) <> i)) as [Hne|Heq].
  - rewrite bool_decide_eq_true_2, filter_cons_True by exact Hne. f_equal. exact IH.
  - rewrite bool_decide_eq_false_2, filter_cons_False by exact Heq. exact IH.
Qed.

(** What [unsubscribe(topic, id)] does to the arrays. *)
Lemma container_unsubscribe_effect topic (i : value) w l :
  Container.get (Container.topics w) topic = Container.SArray l ->
  let r := Container.unsubscribe topic i w in
  r.1 = Normal VUndefined /\
  (forall t, Container.get (Container.topics r.2) t
     = if decide (t = topic)
       then Container.SArray (filter (fun s => VNum (Container.id s) <> i) l)
       else Container.get (Container.topics w) t) /\
  Container.counter r.2 = Container.counter w /\
  Container.user r.2 = Container.user w.
Proof.
  intros Hget r. subst r. unfold Container.unsubscribe. rewrite Hget. simpl.
  destruct (container_get_array _ _ _ Hget) as [Hm Hown].
  split; [reflexivity|]. split; [|split; reflexivity].
  intros t. unfold Container.get. rewrite container_own_update, Hown.
  destruct (decide (t = topic)) as [->|Hne].
  - rewrite Hm. simpl. rewrite container_filter. reflexivity.
  - reflexivity.
Qed.

End ContainerFacts.

(** X20. [unsubscribe(topic, id)] of the container looks in the named topic
    only: it returns [undefined], the topic keeps its subscribers with
    another id in their order, and every other topic keeps all of its
    subscribers, also one with that id. For a topic that has no array it
    throws a TypeError and changes nothing. *)
Theorem container_unsubscribe_one_topic {H : Type} topic (i : value)
    (w : Container.world H) :
  (forall l, Container.get (Container.topics w) topic = Container.SArray l ->
     let r := Container.unsubscribe topic i w in
     r.1 = Normal VUndefined /\
     Container.get (Container.topics r.2) topic
       = Container.SArray (filter (fun s => VNum (Container.id s) <> i) l) /\
     (forall t, t <> topic ->
        Container.get (Container.topics r.2) t = Container.get (Container.topics w) t) /\
     Container.counter r.2 = Container.counter w /\
     Container.user r.2 = Container.user w) /\
  (Container.own topic (Container.topics w) = None ->
   Container.unsubscribe topic i w = (Abrupt TypeError, w)).
Proof.
  split.
  - intros l Hget r. subst r.
    destruct (container_unsubscribe_effect topic i w l Hget) as (Hret & Hall & Hc & Hu).
    cbv zeta in *.
    split; [exact Hret|]. split; [|split; [|split; assumption]].
    + rewrite (Hall topic), decide_True by reflexivity. reflexivity.
    + intros t Hne. rewrite (Hall t), decide_False by exact Hne. reflexivity.
  - intros Hown. unfold Container.unsubscribe, Container.get. rewrite Hown.
    destruct (Container.is_method topic); [reflexivity|].
    destruct (objectPrototype topic); reflexivity.
Qed.

Lemma container_unsubscribe_one_topic_witness :
  Container.topics
    (Container.unsubscribe "keys" (VNum 2) Scenario.container_clicks_and_keys).2
  = Container.topics Scenario.container_clicks_and_keys /\
  Container.unsubscribe "news" (VNum 2) Scenario.container_clicks_and_keys
  = (Abrupt TypeError, Scenario.container_clicks_and_keys).
Proof.
  destruct (container_unsubscribe_one_topic "news" (VNum 2)
              Scenario.container_clicks_and_keys) as [_ Hmissing].
  split.
  - vm_compute. reflexivity.
  - apply Hmissing. reflexivity.
Defined.






(** X23. After the container's [unsubscribe(topic, id)], a [publish] on the
    topic, with callbacks that return and do not call the container's
    methods (they act on the rest of the program state only), calls the
    subscribers with another id, first subscribed first, each with the
    data as only argument, and none with that id. *)
Theorem container_unsubscribe_then_publish {H : Type} (call : Container.behaviour H)
    topic (i data : value) (w : Container.world H) l :
  Container.get (Container.topics w) topic = Container.SArray l ->
  Forall (fun s => Container.returns call (Container.callback s)) l ->
  let r := Container.publish call data topic (Container.unsubscribe topic i w).2 in
  Container.ret r = Normal VUndefined /\
  Container.target <$> Container.trace r
    = filter (fun s => VNum (Container.id s) <> i) l /\
  Forall (Container.delivered data) (Container.trace r).
Proof.
  intros Hget Hret r. subst r.
  destruct (container_unsubscribe_effect topic i w l Hget) as (_ & Hall & _).
  cbv zeta in Hall. specialize (Hall topic). rewrite decide_True in Hall by reflexivity.
  unfold Container.publish. rewrite Hall.
  apply (container_publish_loop call data); [|constructor].
  apply Forall_forall. intros s Hs. apply list_elem_of_filter in Hs as [_ Hs].
  rewrite Forall_forall in Hret. exact (Hret s Hs).
Qed.

Lemma container_unsubscribe_then_publish_witness :
  Container.target <$> Container.trace
    (Container.publish Scenario.container_quiet (VNum 1) "clicks"
       (Container.unsubscribe "clicks" (VNum 2) Scenario.container_clicks_and_keys).2)
  = [Container.Subscriber 1 1%nat].
Proof.
  destruct (container_unsubscribe_then_publish Scenario.container_quiet "clicks"
              (VNum 2) (VNum 1) Scenario.container_clicks_and_keys
              [Container.Subscriber 1 1%nat; Container.Subscriber 2 2%nat])
    as (_ & Htargets & _).
  - reflexivity.
  - repeat constructor; apply container_quiet_returns.
  - rewrite Htargets. vm_compute. reflexivity.
Defined.

(** ** Click *)

Section ClickDelivery.
Context {H : Type}.
Implicit Types (c : Click.click H) (fn : funref).

Lemma fire_loop_returning (call : Click.behaviour H) o scope (items : list funref) :
  (forall item, item ∈ items ->
     forall c, exists v c', call item scope o c = (Normal v, c')) ->
  forall c tr,
    let r := Click.fire_loop call o scope items c tr in
    Click.ret r = Normal VUndefined /\
    exists new,
      Click.trace r = tr ++ new /\
      Click.handler <$> new = items /\
      Forall (fun e => Click.this e = scope /\ Click.argument e = o /\
                       exists v, Click.outcome e = Normal v) new.
Proof.
  induction items as [|item rest IH]; intros Hret c tr; simpl.
  - split; [reflexivity|]. exists []. rewrite app_nil_r. repeat split. constructor.
  - destruct (Hret item (list_elem_of_here _ _) c) as (v & c' & ->).
    destruct (IH (fun x Hx => Hret x (list_elem_of_further _ _ _ Hx)) c'
                (tr ++ [Click.Event item scope o (Normal v)]))
      as (Hr & new & Htr & Hh & Hall).
    split; [exact Hr|].
    exists (Click.Event item scope o (Normal v) :: new).
    split; [rewrite Htr, <- app_assoc; reflexivity|].
    split; [simpl; f_equal; exact Hh|].
    constructor; [|exact Hall]. repeat split. exists v. reflexivity.
Qed.
End ClickDelivery.

(** X24. [fire(o, thisObj)] of Click, with handlers that return, calls every
    registration once in the order of subscription (a handler subscribed
    twice is called twice), each with [o] as argument and with [thisObj]
    as [this], or with the global object when [thisObj] is falsy; it
    returns [undefined]. *)
Theorem fire_calls_in_order {H : Type} (call : Click.behaviour H) o thisObj
    (c : Click.click H) :
  let scope := if truthy thisObj then thisObj else Click.window in
  (forall item, item ∈ Click.handlers c ->
     forall c', exists v c'', call item scope o c' = (Normal v, c'')) ->
  let r := Click.fire call o thisObj c in
  Click.ret r = Normal VUndefined /\
  Click.handler <$> Click.trace r = Click.handlers c /\
  Forall (fun e => Click.this e = scope /\ Click.argument e = o /\
                   exists v, Click.outcome e = Normal v) (Click.trace r).
Proof.
  intros scope Hret r. subst r. unfold Click.fire.
  change (if truthy Click.window then Click.window else VNull) with Click.window.
  fold scope.
  destruct (fire_loop_returning call o scope (Click.handlers c) Hret c [])
    as (Hr & new & Htr & Hh & Hall).
  rewrite app_nil_l in Htr. rewrite Htr.
  split; [exact Hr|]. split; assumption.
Qed.

Lemma fire_calls_in_order_witness :
  let r := Click.fire Samples.click_quiet (VStr "event #1") VUndefined
             {| Click.handlers := [4; 5; 4]%nat; Click.user := tt |} in
  Click.handler <$> Click.trace r = [4; 5; 4]%nat /\
  Forall (fun e => Click.this e = Click.window) (Click.trace r).
Proof.
  destruct (fire_calls_in_order Samples.click_quiet (VStr "event #1") VUndefined
              {| Click.handlers := [4; 5; 4]%nat; Click.user := tt |})
    as (_ & Hh & Hall).
  - intros item _ c'. exists VUndefined, c'. reflexivity.
  - split; [exact Hh|].
    eapply Forall_impl; [exact Hall|]. intros e (Hthis & _). exact Hthis.
Defined.

(** X25. [unsubscribe] of a handler that is not subscribed leaves the Click
    as it is, and subscribing such a handler and unsubscribing it again
    gives the Click back as it was. *)
Theorem click_subscribe_unsubscribe {H : Type} (fn : funref) (c : Click.click H) :
  fn ∉ Click.handlers c ->
  Click.unsubscribe fn c = c /\
  Click.unsubscribe fn (Click.subscribe fn c) = c.
Proof.
  intros Hnot. destruct c as [l h].
  unfold Click.unsubscribe, Click.subscribe. simpl in *.
  assert (Hid : filter (fun item => item <> fn) l = l).
  { clear h. induction l as [|x l IH]; [reflexivity|].
    apply not_elem_of_cons in Hnot as [Hne Hnot].
    rewrite filter_cons_True by congruence. f_equal. apply IH, Hnot. }
  rewrite !click_filter, filter_app, Hid.
  rewrite filter_cons_False by (intros Hn; apply Hn; reflexivity).
  rewrite filter_nil, app_nil_r. split; reflexivity.
Qed.

Lemma click_subscribe_unsubscribe_witness :
  Click.unsubscribe 7%nat
    (Click.subscribe 7%nat {| Click.handlers := [4; 5]%nat; Click.user := tt |})
  = {| Click.handlers := [4; 5]%nat; Click.user := tt |}.
Proof.
  apply (click_subscribe_unsubscribe 7%nat
           {| Click.handlers := [4; 5]%nat; Click.user := tt |}).
  simpl. intros Hin.
  apply elem_of_cons in Hin as [Hin|Hin]; [discriminate|].
  apply list_elem_of_singleton in Hin. discriminate.
Defined.

(** ** [extend] *)





(** ** The ids of the container *)

Section ContainerInvariant.
Context {H : Type}.
Implicit Types (w : Container.world H) (ts : list (string * list Container.subscriber))
  (l : list Container.subscriber).

Lemma container_push ts topic l x :
  Container.own topic ts = Some l ->
  concat (map snd (Container.update topic (fun l => l ++ [x]) ts))
  ≡ₚ x :: concat (map snd ts).
Proof.
  induction ts as [|[m l'] ts IH]; simpl; [discriminate|].
  destruct (decide (m = topic)) as [_|_]; simpl.
  - intros _. rewrite <- app_assoc. simpl. symmetry. apply Permutation_middle.
  - intros Hown. rewrite (IH Hown). symmetry. apply Permutation_middle.
Qed.

Lemma container_update_sublist topic (f : list Container.subscriber -> list Container.subscriber) ts :
  (forall l, f l `sublist_of` l) ->
  concat (map snd (Container.update topic f ts)) `sublist_of` concat (map snd ts).
Proof.
  intros Hf. induction ts as [|[m l] ts IH]; simpl; [reflexivity|].
  destruct (decide (m = topic)) as [_|_]; simpl.
  - apply sublist_app; [apply Hf | reflexivity].
  - apply sublist_app; [reflexivity | exact IH].
Qed.

Lemma container_subscribe_subscribers topic f w :
  let w' := (Container.subscribe topic f w).2 in
  Container.subscribers w' ≡ₚ Container.subscribers w \/
  Container.subscribers w'
  ≡ₚ Container.Subscriber (increment (Container.counter w)) f
     :: Container.subscribers w.
Proof.
  unfold Container.subscribe, Container.subscribers.
  set (ts := match Container.get (Container.topics w) topic with
             | Container.SUndefined => Container.topics w ++ [(topic, [])]
             | _ => Container.topics w
             end).
  assert (Hts : concat (map snd ts) = concat (map snd (Container.topics w))).
  { subst ts. destruct (Container.get (Container.topics w) topic); try reflexivity.
    rewrite map_app, concat_app. simpl. apply app_nil_r. }
  destruct (Container.get ts topic) as [l| | |] eqn:Hget; simpl;
    try (left; rewrite Hts; reflexivity).
  right. destruct (container_get_array _ _ _ Hget) as [_ Hown].
  rewrite (container_push ts topic l _ Hown), Hts. reflexivity.
Qed.

Lemma container_subscribe_ids_distinct topic f w :
  Container.counter w < max_safe ->
  Container.ids_distinct w -> Container.ids_distinct (Container.subscribe topic f w).2.
Proof.
  intros Hb [Hnd Hall]. unfold Container.ids_distinct.
  pose proof (container_subscribe_subscribers topic f w) as Hsubs.
  rewrite container_subscribe_counter. rewrite increment_below in * by exact Hb.
  assert (Hall' : Forall (fun s => Container.id s <= Container.counter w + 1)
                    (Container.subscribers w)).
  { eapply Forall_impl; [exact Hall|]. simpl. intros s Hs. lia. }
  destruct Hsubs as [Hp|Hp]; rewrite Hp.
  - split; assumption.
  - split.
    + rewrite fmap_cons. apply NoDup_cons. split; [|exact Hnd]. simpl.
      intros Hin. apply list_elem_of_fmap in Hin as (s & Hs & Hin).
      rewrite Forall_forall in Hall. specialize (Hall s Hin). lia.
    + constructor; [simpl; lia | exact Hall'].
Qed.

Lemma list_filter_sublist {A} (p : A -> bool) (l : list A) :
  List.filter p l `sublist_of` l.
Proof.
  induction l as [|x l IH]; simpl; [constructor|].
  destruct (p x); [apply sublist_skip | apply sublist_cons]; exact IH.
Qed.

Lemma container_unsubscribe_ids_distinct topic (i : value) w :
  Container.ids_distinct w -> Container.ids_distinct (Container.unsubscribe topic i w).2.
Proof.
  intros [Hnd Hall]. unfold Container.unsubscribe.
  destruct (Container.get (Container.topics w) topic); try (split; assumption).
  unfold Container.ids_distinct, Container.subscribers in *. simpl.
  pose proof (container_update_sublist topic
    (List.filter (fun s => bool_decide (VNum (Container.id s) <> i)))
    (Container.topics w) (list_filter_sublist _)) as Hsub.
  split.
  - eapply sublist_NoDup; [exact Hnd|]. apply fmap_sublist, Hsub.
  - apply Forall_forall. intros s Hs. rewrite Forall_forall in Hall.
    apply Hall. eapply elem_of_sublist; [exact Hs | exact Hsub].
Qed.

Lemma container_run_ids_distinct rs : forall w,
  Container.counter w + Container.subscribe_calls rs <= max_safe ->
  Container.ids_distinct w -> Container.ids_distinct (Container.run rs w).2.
Proof.
  induction rs as [|r rs IH]; intros w Hb Hw; cbn [Container.run]; [exact Hw|].
  pose proof (container_subscribe_calls_nonneg rs) as Hnn.
  destruct (Container.serve r w) as [c w1] eqn:E.
  specialize (IH w1). destruct (Container.run rs w1) as [log w2]. cbn [snd] in *.
  replace w1 with (Container.serve r w).2 in * by (rewrite E; reflexivity).
  destruct r as [topic f|topic i];
    cbn [Container.serve Container.subscribe_calls] in *.
  - apply IH.
    + rewrite container_subscribe_counter, increment_below by lia. lia.
    + apply container_subscribe_ids_distinct; [lia | exact Hw].
  - apply IH.
    + rewrite container_unsubscribe_counter. lia.
    + apply container_unsubscribe_ids_distinct, Hw.
Qed.

Lemma container_own_subscribers ts t l :
  Container.own t ts = Some l -> l `sublist_of` concat (map snd ts).
Proof.
  induction ts as [|[m l'] ts IH]; simpl; [discriminate|].
  destruct (decide (m = t)) as [_|_].
  - intros [= ->]. apply sublist_inserts_r. reflexivity.
  - intros Hown. apply sublist_inserts_l, IH, Hown.
Qed.
End ContainerInvariant.

(** X27. In every state that [subscribe] and [unsubscribe] calls lead to
    from the new container with at most 2^53 calls of [subscribe], no two
    subscribers, in whatever topics, have the same id; so
    [unsubscribe(topic, id)] removes one subscriber of the topic at most. *)
Theorem reachable_ids_distinct {H : Type} (rs : list Container.request) (h : H) :
  Container.subscribe_calls rs <= max_safe ->
  let w := (Container.run rs (Container.init h)).2 in
  NoDup (Container.id <$> Container.subscribers w) /\
  forall topic (i : value) l,
    Container.get (Container.topics w) topic = Container.SArray l ->
    exists l',
      Container.get (Container.topics (Container.unsubscribe topic i w).2) topic
      = Container.SArray l' /\
      (length l <= S (length l'))%nat.
Proof.
  intros Hb w.
  assert (Hinv : Container.ids_distinct w).
  { apply container_run_ids_distinct; [simpl; lia | split; constructor]. }
  destruct Hinv as [Hnd _]. split; [exact Hnd|].
  intros topic i l Hget.
  destruct (container_unsubscribe_effect topic i w l Hget) as (_ & Hall & _).
  cbv zeta in Hall. specialize (Hall topic). rewrite decide_True in Hall by reflexivity.
  eexists. split; [exact Hall|].
  destruct (container_get_array _ _ _ Hget) as [_ Hown].
  assert (Hndl : NoDup (Container.id <$> l)).
  { eapply sublist_NoDup; [exact Hnd|].
    apply fmap_sublist, (container_own_subscribers _ topic), Hown. }
  clear -Hndl. induction l as [|s l IH]; [simpl; lia|].
  rewrite fmap_cons in Hndl. apply NoDup_cons in Hndl as [Hnot Hndl].
  destruct (decide (VNum (Container.id s) <> i)) as [Hne|Heq].
  - rewrite filter_cons_True by exact Hne. simpl. specialize (IH Hndl). lia.
  - rewrite filter_cons_False by exact Heq.
    assert (Hid : filter (fun s0 => VNum (Container.id s0) <> i) l = l).
    { clear IH. induction l as [|x l IH]; [reflexivity|].
      rewrite fmap_cons in Hnot, Hndl.
      apply not_elem_of_cons in Hnot as [Hx Hnot].
      apply NoDup_cons in Hndl as [_ Hndl].
      rewrite filter_cons_True.
      - f_equal. apply IH; assumption.
      - intros Hxi. apply Hx. apply dec_stable in Heq. congruence. }
    rewrite Hid. simpl. lia.
Qed.

Lemma reachable_ids_distinct_witness :
  NoDup (Container.id <$> Container.subscribers
           (Container.run [Container.Subscribe "clicks" 1%nat;
                           Container.Subscribe "keys" 2%nat;
                           Container.Unsubscribe "clicks" (VNum 1);
                           Container.Subscribe "clicks" 3%nat]
              (Container.init tt)).2).
Proof.
  apply (reachable_ids_distinct
           [Container.Subscribe "clicks" 1%nat; Container.Subscribe "keys" 2%nat;
            Container.Unsubscribe "clicks" (VNum 1);
            Container.Subscribe "clicks" 3%nat] tt).
  vm_compute. discriminate.
Defined.

(** ** Removing an observer, then notifying *)

Section NotifyAfterRemoval.
Context {H : Type}.
Implicit Types (s : Subject.subject H) (o : objref).

(** The loop of [notify] when every [update] returns and leaves the list
    as it is. *)
Lemma notify_loop_steady (update : Subject.behaviour H) ctx l0 :
  (forall o s, o ∈ l0 -> Subject.observers s = l0 ->
     exists v s', update o ctx s = (Normal v, s') /\ Subject.observers s' = l0) ->
  forall (n j : nat) s tr,
    (j + n = length l0)%nat -> Subject.observers s = l0 ->
    let r := Subject.notify_loop update ctx n (Z.of_nat j) s tr in
    Subject.ret r = Normal VUndefined /\
    Subject.observer <$> Subject.trace r = (Subject.observer <$> tr) ++ drop j l0 /\
    Subject.observers (Subject.final r) = l0.
Proof.
  intros Hupd. induction n as [|n IH]; intros j s tr Hlen Hobs; simpl.
  - rewrite drop_ge by lia. rewrite app_nil_r. repeat split. exact Hobs.
  - rewrite get_of_nat.
    destruct (lookup_lt_is_Some_2 l0 j) as [o Ho]; [lia|].
    assert (Hs : Subject.observers s !! j = Some o) by (rewrite Hobs; exact Ho).
    rewrite Hs.
    destruct (Hupd o s (list_elem_of_lookup_2 _ _ _ Ho) Hobs) as (v & s' & -> & Hobs').
    replace (Z.of_nat j + 1) with (Z.of_nat (S j)) by lia.
    destruct (IH (S j) s' (tr ++ [Subject.Event o ctx (Normal v)]))
      as (Hret & Htr & Hfin); [lia | exact Hobs' |].
    split; [exact Hret|]. split; [|exact Hfin].
    rewrite Htr, fmap_app, <- app_assoc. simpl. rewrite (drop_S _ _ _ Ho). reflexivity.
Qed.
End NotifyAfterRemoval.

(** X28. After [removeObserver] of a registered observer, a [notify] (with
    [update] callbacks that return and leave the list alone) calls the
    remaining registrations once each, in the order in which they were
    added, skipping the first registration of the removed observer and
    nothing else. *)
Theorem removeObserver_then_notify {H : Type} (update : Subject.behaviour H)
    ctx o (s : Subject.subject H) :
  o ∈ Subject.observers s ->
  (forall o' s', o' ∈ Subject.observers (Subject.removeObserver o s) ->
     Subject.observers s' = Subject.observers (Subject.removeObserver o s) ->
     exists v s'', update o' ctx s' = (Normal v, s'') /\
       Subject.observers s'' = Subject.observers (Subject.removeObserver o s)) ->
  let r := Subject.notify update ctx (Subject.removeObserver o s) in
  Subject.ret r = Normal VUndefined /\
  exists k : nat,
    Subject.observers s !! k = Some o /\
    (forall j : nat, (j < k)%nat -> Subject.observers s !! j <> Some o) /\
    Subject.observer <$> Subject.trace r = delete k (Subject.observers s).
Proof.
  intros Hin Hupd r. subst r.
  destruct (removeObserver_present o s Hin) as (k & Hat & Hbefore & Heq).
  unfold Subject.notify, ObserverList.count. rewrite Nat2Z.id.
  destruct (notify_loop_steady update ctx _ Hupd
              (length (Subject.observers (Subject.removeObserver o s))) 0
              (Subject.removeObserver o s) [])
    as (Hret & Htr & _); [lia | reflexivity |].
  split; [exact Hret|]. exists k. split; [exact Hat|]. split.
  - intros j Hj Hl. apply Hbefore. apply list_elem_of_lookup. exists j.
    rewrite lookup_take_lt by exact Hj. exact Hl.
  - change (Z.of_nat 0) with 0 in Htr. rewrite Htr, fmap_nil, app_nil_l, drop_0.
    exact Heq.
Qed.

Lemma removeObserver_then_notify_witness :
  let r := Subject.notify Samples.steady (VBool true)
             (Subject.removeObserver 7%nat
                {| Subject.observers := [4; 7; 5; 7]%nat; Subject.user := tt |}) in
  Subject.ret r = Normal VUndefined /\
  Subject.observer <$> Subject.trace r = [4; 5; 7]%nat.
Proof.
  destruct (removeObserver_then_notify Samples.steady (VBool true) 7%nat
              {| Subject.observers := [4; 7; 5; 7]%nat; Subject.user := tt |})
    as (Hret & _).
  - right. left.
  - intros o' s' _ Hobs. exists VUndefined, s'. split; [reflexivity | exact Hobs].
  - split; [exact Hret | vm_compute; reflexivity].
Defined.
